(** * Apartment listings API: a shallow embedding of [main.py] and
      [listings/listings.py], and the properties of its handlers.

    The program is a FastAPI application over one in-memory dictionary
    [listings_db : Dict[UUID, ListingRead]].  The handlers are embedded as
    computations in a small reader/state/exception monad: the reader part
    is the environment the handlers call into ([uuid4], [datetime.utcnow]),
    the state part is the dictionary, the exception part is Python's
    [raise]. *)

From Stdlib Require Import ZArith NArith Bool List Ascii String Lia.
From Stdlib Require Import Floats.PrimFloat Floats.FloatOps Floats.SpecFloat.
From Stdlib Require Import Floats.FloatAxioms Permutation btauto.Btauto.
From Stdlib Require Import QArith Qpower.
From stdpp Require Import gmap strings list fin_maps.

Local Open Scope string_scope.
Local Open Scope Z_scope.

(** ** Python values *)

(** [uuid.UUID]: a 128-bit number. *)
Definition UUID : Type := N.

(** [datetime.datetime] (naive, UTC): microseconds on the time line. *)
Definition datetime : Type := Z.

(** Python [str] is carried as its UTF-8 text; [==] on [str] is equality of
    that text. *)
Definition str_eq (a b : string) : bool := String.eqb a b.

(** Lower-casing of ASCII text: [A-Z] go to [a-z], every other character
    is kept. *)
Definition lower_char (c : ascii) : ascii :=
  let n := nat_of_ascii c in
  if ((65 <=? n) && (n <=? 90))%nat then ascii_of_nat (n + 32) else c.

Fixpoint ascii_lower (s : string) : string :=
  match s with
  | EmptyString => EmptyString
  | String c s' => String (lower_char c) (ascii_lower s')
  end.

Fixpoint is_ascii (s : string) : bool :=
  match s with
  | EmptyString => true
  | String c s' => (nat_of_ascii c <? 128)%nat && is_ascii s'
  end.

(** [str.lower] is a built-in of the interpreter, driven by the Unicode
    tables.  The handlers only call it, so it is an interface here, with the
    two facts about it that the filters rely on: on ASCII text it is
    [ascii_lower], and it never maps a non-empty text to the empty one. *)
Class StrLower := {
  lower : string -> string;
  lower_on_ascii : forall s, is_ascii s = true -> lower s = ascii_lower s;
  lower_nonempty : forall s, lower s = EmptyString -> s = EmptyString
}.

(** Truth value testing ([if x:], [x and y], [x or y]). *)
Class Truthy (A : Type) := truthy : A -> bool.

#[export] Instance truthy_int : Truthy Z := fun z => negb (z =? 0).
#[export] Instance truthy_str : Truthy string := fun s => negb (str_eq s EmptyString).
#[export] Instance truthy_list {A} : Truthy (list A) :=
  fun l => match l with [] => false | _ :: _ => true end.
#[export] Instance truthy_optional {A} `{Truthy A} : Truthy (option A) :=
  fun o => match o with None => false | Some a => truthy a end.

(** [x or d] where [x] is an [Optional[int]] and [d] an [int]. *)
Definition or_int (x : option Z) (d : Z) : Z :=
  match x with
  | Some v => if truthy v then v else d
  | None => d
  end.

(** [x or d] on lists. *)
Definition or_list {A} (x d : list A) : list A :=
  if truthy x then x else d.

(** [a in xs] for a list of [str]. *)
Definition str_in (a : string) (xs : list string) : bool :=
  existsb (str_eq a) xs.

(** Comparison of floats: [a >= b] and [a <= b] of IEEE 754 binary64
    (false as soon as one side is NaN). *)
Definition float_ge (a b : float) : bool := PrimFloat.leb b a.
Definition float_le (a b : float) : bool := PrimFloat.leb a b.

(** Comparison of an [int] with a [float].  Python compares the two
    exactly, without rounding the integer: a NaN is unordered, an infinity
    is beyond every integer, and a finite float [(-1)^s * m * 2^e] is
    compared as a rational. *)
Definition int_cmp_float (z : Z) (f : float) : option comparison :=
  match Prim2SF f with
  | S754_nan => None
  | S754_infinity s => Some (if s then Gt else Lt)
  | S754_zero _ => Some (z ?= 0)
  | S754_finite s m e =>
      let v := if s then Z.neg m else Z.pos m in
      Some (if 0 <=? e then z ?= v * 2 ^ e else z * 2 ^ (- e) ?= v)
  end.

Definition int_ge_float (z : Z) (f : float) : bool :=
  match int_cmp_float z f with
  | Some Gt | Some Eq => true
  | _ => false
  end.

Definition int_le_float (z : Z) (f : float) : bool :=
  match int_cmp_float z f with
  | Some Lt | Some Eq => true
  | _ => false
  end.

(** ** The models of [listings/address.py] and [listings/listings.py] *)

(** Modelled from the spec: the module [listings/address.py], which declares
    [AddressCreate], is not among the sources.  The fields are the ones
    [make_address_read] reads; street and city are required text, state,
    postal code and country are optional. *)
Module AddressCreate.
Record t := mk {
  street : string;
  city : string;
  state : option string;
  postal_code : option string;
  country : option string
}.
End AddressCreate.

(** Modelled from the spec: [AddressRead] of the same missing module, with
    the fields [make_address_read] passes to its constructor. *)
Module AddressRead.
Record t := mk {
  id : UUID;
  street : string;
  city : string;
  state : option string;
  postal_code : option string;
  country : option string;
  created_at : datetime;
  updated_at : datetime
}.
End AddressRead.

(** [ListingCreate]: the fields of [ListingBase] and the inline address. *)
Module ListingCreate.
Record t := mk {
  title : string;
  description : option string;
  monthly_rent : float;
  num_bedrooms : Z;
  num_bathrooms : Z;
  square_feet : option Z;
  amenities : list string;
  is_available : bool;
  address : AddressCreate.t
}.
End ListingCreate.

(** [ListingRead]: the fields of [ListingBase], the server-side fields and
    the embedded [AddressRead]. *)
Module ListingRead.
Record t := mk {
  id : UUID;
  title : string;
  description : option string;
  monthly_rent : float;
  num_bedrooms : Z;
  num_bathrooms : Z;
  square_feet : option Z;
  amenities : list string;
  is_available : bool;
  address : AddressRead.t;
  created_at : datetime;
  updated_at : datetime
}.
End ListingRead.

(** The keyword arguments of [list_listings]; every one defaults to
    [None]. *)
Module Query.
Record t := mk {
  min_rent : option float;
  max_rent : option float;
  min_bedrooms : option Z;
  max_bedrooms : option Z;
  min_bathrooms : option float;
  max_bathrooms : option float;
  min_sqft : option Z;
  max_sqft : option Z;
  amenities : option (list string);
  city : option string;
  state : option string;
  is_available : option bool
}.

Definition none : t :=
  mk None None None None None None None None None None None None.

(** The same call with one keyword argument replaced. *)
Definition with_min_sqft (v : option Z) (q : t) : t :=
  mk (min_rent q) (max_rent q) (min_bedrooms q) (max_bedrooms q)
     (min_bathrooms q) (max_bathrooms q) v (max_sqft q)
     (amenities q) (city q) (state q) (is_available q).

Definition with_max_sqft (v : option Z) (q : t) : t :=
  mk (min_rent q) (max_rent q) (min_bedrooms q) (max_bedrooms q)
     (min_bathrooms q) (max_bathrooms q) (min_sqft q) v
     (amenities q) (city q) (state q) (is_available q).

Definition with_amenities (v : option (list string)) (q : t) : t :=
  mk (min_rent q) (max_rent q) (min_bedrooms q) (max_bedrooms q)
     (min_bathrooms q) (max_bathrooms q) (min_sqft q) (max_sqft q)
     v (city q) (state q) (is_available q).

Definition with_city (v : option string) (q : t) : t :=
  mk (min_rent q) (max_rent q) (min_bedrooms q) (max_bedrooms q)
     (min_bathrooms q) (max_bathrooms q) (min_sqft q) (max_sqft q)
     (amenities q) v (state q) (is_available q).

Definition with_state (v : option string) (q : t) : t :=
  mk (min_rent q) (max_rent q) (min_bedrooms q) (max_bedrooms q)
     (min_bathrooms q) (max_bathrooms q) (min_sqft q) (max_sqft q)
     (amenities q) (city q) v (is_available q).

Definition with_is_available (v : option bool) (q : t) : t :=
  mk (min_rent q) (max_rent q) (min_bedrooms q) (max_bedrooms q)
     (min_bathrooms q) (max_bathrooms q) (min_sqft q) (max_sqft q)
     (amenities q) (city q) (state q) v.
End Query.

(** ** The world of the handlers *)

(** What the handlers call into: the [n]-th call of [uuid4] and the [n]-th
    reading of [datetime.utcnow] since the process started. *)
Record Env := {
  uuid4_at : nat -> UUID;
  utcnow_at : nat -> datetime
}.

(** The process state: the module-level dictionary [listings_db], and how
    often the generator and the clock have been used. *)
Record World := {
  listings_db : gmap UUID ListingRead.t;
  uuid_calls : nat;
  clock_reads : nat
}.

Definition initial : World :=
  {| listings_db := ∅; uuid_calls := 0; clock_reads := 0 |}.

Inductive Exception :=
| HTTPException (status_code : Z) (detail : string)
| KeyError (key : UUID).

Inductive Outcome (A : Type) :=
| Return (a : A)
| Raise (e : Exception).
Arguments Return {A} a.
Arguments Raise {A} e.

Definition M (A : Type) : Type := Env -> World -> Outcome A * World.

Definition ret {A} (a : A) : M A := fun _ w => (Return a, w).

Definition bind {A B} (m : M A) (k : A -> M B) : M B :=
  fun env w =>
    match m env w with
    | (Return a, w') => k a env w'
    | (Raise e, w') => (Raise e, w')
    end.

Definition raise {A} (e : Exception) : M A := fun _ w => (Raise e, w).

Notation "x <~ m ;; k" := (bind m (fun x => k))
  (at level 100, m at next level, right associativity).
Notation "m ;;; k" := (bind m (fun _ => k))
  (at level 100, right associativity).

Definition uuid4 : M UUID :=
  fun env w =>
    (Return (uuid4_at env (uuid_calls w)),
     {| listings_db := listings_db w;
        uuid_calls := S (uuid_calls w);
        clock_reads := clock_reads w |}).

Definition utcnow : M datetime :=
  fun env w =>
    (Return (utcnow_at env (clock_reads w)),
     {| listings_db := listings_db w;
        uuid_calls := uuid_calls w;
        clock_reads := S (clock_reads w) |}).

Definition with_db (w : World) (db : gmap UUID ListingRead.t) : World :=
  {| listings_db := db;
     uuid_calls := uuid_calls w;
     clock_reads := clock_reads w |}.

(** [k in listings_db] *)
Definition db_contains (k : UUID) : M bool :=
  fun _ w => (Return (bool_decide (is_Some (listings_db w !! k))), w).

(** [listings_db.get(k)] *)
Definition db_get (k : UUID) : M (option ListingRead.t) :=
  fun _ w => (Return (listings_db w !! k), w).

(** [listings_db[k]] *)
Definition db_getitem (k : UUID) : M ListingRead.t :=
  fun _ w =>
    match listings_db w !! k with
    | Some l => (Return l, w)
    | None => (Raise (KeyError k), w)
    end.

(** [listings_db[k] = v] *)
Definition db_setitem (k : UUID) (v : ListingRead.t) : M unit :=
  fun _ w => (Return tt, with_db w (<[k := v]> (listings_db w))).

(** [del listings_db[k]] *)
Definition db_delitem (k : UUID) : M unit :=
  fun _ w =>
    match listings_db w !! k with
    | Some _ => (Return tt, with_db w (delete k (listings_db w)))
    | None => (Raise (KeyError k), w)
    end.

(** [list(listings_db.values())].  The interpreter yields the values in
    insertion order; the model leaves the order to the map, and no property
    below depends on it. *)
Definition db_values : M (list ListingRead.t) :=
  fun _ w => (Return ((map_to_list (listings_db w)).*2), w).

(** ** [main.py] *)

Definition make_address_read (addr : AddressCreate.t) : M AddressRead.t :=
  now <~ utcnow ;;
  new_id <~ uuid4 ;;
  ret {| AddressRead.id := new_id;
         AddressRead.street := AddressCreate.street addr;
         AddressRead.city := AddressCreate.city addr;
         AddressRead.state := AddressCreate.state addr;
         AddressRead.postal_code := AddressCreate.postal_code addr;
         AddressRead.country := AddressCreate.country addr;
         AddressRead.created_at := now;
         AddressRead.updated_at := now |}.

Definition make_listing_read (payload : ListingCreate.t) : M ListingRead.t :=
  now <~ utcnow ;;
  new_id <~ uuid4 ;;
  addr <~ make_address_read (ListingCreate.address payload) ;;
  ret {| ListingRead.id := new_id;
         ListingRead.title := ListingCreate.title payload;
         ListingRead.description := ListingCreate.description payload;
         ListingRead.monthly_rent := ListingCreate.monthly_rent payload;
         ListingRead.num_bedrooms := ListingCreate.num_bedrooms payload;
         ListingRead.num_bathrooms := ListingCreate.num_bathrooms payload;
         ListingRead.square_feet := ListingCreate.square_feet payload;
         ListingRead.amenities := or_list (ListingCreate.amenities payload) [];
         ListingRead.is_available := ListingCreate.is_available payload;
         ListingRead.address := addr;
         ListingRead.created_at := now;
         ListingRead.updated_at := now |}.

Definition create_listing (payload : ListingCreate.t) : M ListingRead.t :=
  listing <~ make_listing_read payload ;;
  present <~ db_contains (ListingRead.id listing) ;;
  if (present : bool)
  then raise (HTTPException 400 "Listing with this ID already exists")
  else
    db_setitem (ListingRead.id listing) listing ;;;
    db_getitem (ListingRead.id listing).


(** The list comprehension [[l for l in results if keep(l)]]. *)
Definition comprehension (keep : ListingRead.t -> bool)
    (results : list ListingRead.t) : list ListingRead.t :=
  List.filter keep results.

Definition list_listings `{StrLower} (q : Query.t) : M (list ListingRead.t) :=
  results <~ db_values ;;
  let results :=
    match Query.min_rent q with
    | Some min_rent =>
        comprehension (fun l => float_ge (ListingRead.monthly_rent l) min_rent) results
    | None => results
    end in
  let results :=
    match Query.max_rent q with
    | Some max_rent =>
        comprehension (fun l => float_le (ListingRead.monthly_rent l) max_rent) results
    | None => results
    end in
  let results :=
    match Query.min_bedrooms q with
    | Some min_bedrooms =>
        comprehension (fun l => ListingRead.num_bedrooms l >=? min_bedrooms) results
    | None => results
    end in
  let results :=
    match Query.max_bedrooms q with
    | Some max_bedrooms =>
        comprehension (fun l => ListingRead.num_bedrooms l <=? max_bedrooms) results
    | None => results
    end in
  let results :=
    match Query.min_bathrooms q with
    | Some min_bathrooms =>
        comprehension (fun l => int_ge_float (ListingRead.num_bathrooms l) min_bathrooms) results
    | None => results
    end in
  let results :=
    match Query.max_bathrooms q with
    | Some max_bathrooms =>
        comprehension (fun l => int_le_float (ListingRead.num_bathrooms l) max_bathrooms) results
    | None => results
    end in
  let results :=
    match Query.min_sqft q with
    | Some min_sqft =>
        comprehension (fun l => or_int (ListingRead.square_feet l) 0 >=? min_sqft) results
    | None => results
    end in
  let results :=
    match Query.max_sqft q with
    | Some max_sqft =>
        comprehension (fun l => or_int (ListingRead.square_feet l) 0 <=? max_sqft) results
    | None => results
    end in
  let results :=
    match Query.is_available q with
    | Some is_available =>
        comprehension (fun l => Bool.eqb (ListingRead.is_available l) is_available) results
    | None => results
    end in
  let results :=
    match Query.amenities q with
    | Some amenities =>
        if truthy amenities
        then comprehension
               (fun l => forallb (fun a => str_in a (ListingRead.amenities l)) amenities)
               results
        else results
    | None => results
    end in
  let results :=
    match Query.city q with
    | Some city =>
        if truthy city
        then comprehension
               (fun l => str_eq (lower (AddressRead.city (ListingRead.address l)))
                                (lower city))
               results
        else results
    | None => results
    end in
  let results :=
    match Query.state q with
    | Some state =>
        if truthy state
        then comprehension
               (fun l =>
                  match AddressRead.state (ListingRead.address l) with
                  | Some l_state =>
                      truthy l_state && str_eq (lower l_state) (lower state)
                  | None => false
                  end)
               results
        else results
    | None => results
    end in
  ret results.

(** [existing] is [None] or a model instance; a model instance is always
    true, so [not existing] tests for [None]. *)
Definition update_listing (listing_id : UUID) (payload : ListingCreate.t)
    : M ListingRead.t :=
  existing <~ db_get listing_id ;;
  match existing with
  | None => raise (HTTPException 404 "Listing not found")
  | Some existing =>
      new_address <~ make_address_read (ListingCreate.address payload) ;;
      now <~ utcnow ;;
      let new_listing :=
        {| ListingRead.id := listing_id;
           ListingRead.title := ListingCreate.title payload;
           ListingRead.description := ListingCreate.description payload;
           ListingRead.monthly_rent := ListingCreate.monthly_rent payload;
           ListingRead.num_bedrooms := ListingCreate.num_bedrooms payload;
           ListingRead.num_bathrooms := ListingCreate.num_bathrooms payload;
           ListingRead.square_feet := ListingCreate.square_feet payload;
           ListingRead.amenities := ListingCreate.amenities payload;
           ListingRead.is_available := ListingCreate.is_available payload;
           ListingRead.address := new_address;
           ListingRead.created_at := ListingRead.created_at existing;
           ListingRead.updated_at := now |} in
      db_setitem listing_id new_listing ;;;
      ret new_listing
  end.

Definition delete_listing (listing_id : UUID) : M unit :=
  present <~ db_contains listing_id ;;
  if negb present
  then raise (HTTPException 404 "Course no found.")
  else db_delitem listing_id.

(** ** The routes *)

(** What the framework sends back: the handler's value under the status
    code of its decorator, or the status and detail of the [HTTPException]
    it raised; any other exception is an internal server error. *)
Inductive Response (A : Type) :=
| Success (status_code : Z) (content : A)
| Failure (status_code : Z) (detail : string).
Arguments Success {A} status_code content.
Arguments Failure {A} status_code detail.

Definition route {A} (status_code : Z) (handler : M A)
    : Env -> World -> Response A * World :=
  fun env w =>
    match handler env w with
    | (Return a, w') => (Success status_code a, w')
    | (Raise (HTTPException code detail), w') => (Failure code detail, w')
    | (Raise (KeyError _), w') => (Failure 500 "Internal Server Error", w')
    end.

(** [@app.post("/listings", status_code=201)] *)
Definition post_listings (payload : ListingCreate.t) := route 201 (create_listing payload).

(** [@app.get("/listings")] *)
Definition get_listings `{StrLower} (q : Query.t) := route 200 (list_listings q).

(** [@app.put("/listings/{listing_id}")] *)
Definition put_listing (listing_id : UUID) (payload : ListingCreate.t) :=
  route 200 (update_listing listing_id payload).

(** [@app.delete("/listings/{listing_id}", status_code=204)] *)
Definition delete_listing_route (listing_id : UUID) := route 204 (delete_listing listing_id).

(** The requests a client can send, and the worlds the process can be in:
    it starts with an empty dictionary and serves one request after the
    other. *)
Inductive Request :=
| POST (payload : ListingCreate.t)
| GET (q : Query.t)
| PUT (listing_id : UUID) (payload : ListingCreate.t)
| DELETE (listing_id : UUID).

Definition serve `{StrLower} (env : Env) (r : Request) (w : World) : World :=
  match r with
  | POST payload => snd (post_listings payload env w)
  | GET q => snd (get_listings q env w)
  | PUT listing_id payload => snd (put_listing listing_id payload env w)
  | DELETE listing_id => snd (delete_listing_route listing_id env w)
  end.

Inductive reachable `{StrLower} (env : Env) : World -> Prop :=
| reachable_initial : reachable env initial
| reachable_serve w r : reachable env w -> reachable env (serve env r w).

Fixpoint serve_all `{StrLower} (env : Env) (rs : list Request) (w : World) : World :=
  match rs with
  | [] => w
  | r :: rs' => serve_all env rs' (serve env r w)
  end.

(** The clock never runs backwards. *)
Definition monotone_clock (env : Env) : Prop :=
  forall i j : nat, (i <= j)%nat -> utcnow_at env i <= utcnow_at env j.

(** An interpreter whose [str.lower] is the ASCII one; the concrete runs
    below use ASCII text only. *)
Definition ascii_str_lower : StrLower :=
  {| lower := ascii_lower;
     lower_on_ascii := fun s _ => eq_refl;
     lower_nonempty := fun s =>
       match s with
       | EmptyString => fun _ => eq_refl
       | String c s' => fun Hs => ltac:(discriminate Hs)
       end |}.

(** ** What a query asks of a listing *)

(** The records in the dictionary, as [list_listings] reads them. *)
Definition stored (w : World) : list ListingRead.t :=
  (map_to_list (listings_db w)).*2.

(** A criterion that was not supplied asks nothing. *)
Definition supplied {A} (arg : option A) (test : A -> bool) : bool :=
  match arg with
  | Some v => test v
  | None => true
  end.

(** The tests of the three criteria that are guarded by a truth value. *)
Definition amenities_test (amenities : list string) (l : ListingRead.t) : bool :=
  if truthy amenities
  then forallb (fun a => str_in a (ListingRead.amenities l)) amenities
  else true.

Definition city_test `{StrLower} (city : string) (l : ListingRead.t) : bool :=
  if truthy city
  then str_eq (lower (AddressRead.city (ListingRead.address l))) (lower city)
  else true.

Definition state_test `{StrLower} (state : string) (l : ListingRead.t) : bool :=
  if truthy state
  then match AddressRead.state (ListingRead.address l) with
       | Some l_state => truthy l_state && str_eq (lower l_state) (lower state)
       | None => false
       end
  else true.

(** The conjunction of the twelve criteria, in the order of the handler. *)
Definition passes `{StrLower} (q : Query.t) (l : ListingRead.t) : bool :=
  supplied (Query.min_rent q) (fun v => float_ge (ListingRead.monthly_rent l) v)
  && supplied (Query.max_rent q) (fun v => float_le (ListingRead.monthly_rent l) v)
  && supplied (Query.min_bedrooms q) (fun v => ListingRead.num_bedrooms l >=? v)
  && supplied (Query.max_bedrooms q) (fun v => ListingRead.num_bedrooms l <=? v)
  && supplied (Query.min_bathrooms q) (fun v => int_ge_float (ListingRead.num_bathrooms l) v)
  && supplied (Query.max_bathrooms q) (fun v => int_le_float (ListingRead.num_bathrooms l) v)
  && supplied (Query.min_sqft q) (fun v => or_int (ListingRead.square_feet l) 0 >=? v)
  && supplied (Query.max_sqft q) (fun v => or_int (ListingRead.square_feet l) 0 <=? v)
  && supplied (Query.is_available q) (fun v => Bool.eqb (ListingRead.is_available l) v)
  && supplied (Query.amenities q) (fun v => amenities_test v l)
  && supplied (Query.city q) (fun v => city_test v l)
  && supplied (Query.state q) (fun v => state_test v l).

(** The number a float stands for: not a number, an infinity, or a
    rational [(-1)^s * m * 2^e]. *)
Inductive Number :=
| NotANumber
| MinusInfinity
| PlusInfinity
| Rational (q : Q).

Definition number_of (f : float) : Number :=
  match Prim2SF f with
  | S754_nan => NotANumber
  | S754_infinity true => MinusInfinity
  | S754_infinity false => PlusInfinity
  | S754_zero _ => Rational 0
  | S754_finite s m e =>
      Rational (inject_Z (if s then Z.neg m else Z.pos m) * 2 ^ e)%Q
  end.

(** An integer count is at least (at most) a bound given as a float: an
    inclusive comparison of the two numbers, which nothing passes when the
    bound is not a number. *)
Definition count_at_least (n : Z) (bound : float) : Prop :=
  match number_of bound with
  | NotANumber => False
  | MinusInfinity => True
  | PlusInfinity => False
  | Rational q => (q <= inject_Z n)%Q
  end.

Definition count_at_most (n : Z) (bound : float) : Prop :=
  match number_of bound with
  | NotANumber => False
  | MinusInfinity => False
  | PlusInfinity => True
  | Rational q => (inject_Z n <= q)%Q
  end.

(** What the specification asks of a listing, in its own words, criterion
    by criterion (section 4.4): inclusive bounds on rent, bedrooms and
    bathrooms; inclusive bounds on the square footage, taken as 0 when the
    listing has none; every requested amenity among the listing's; city
    equal after lower-casing; a state that is there and equal after
    lower-casing; the availability flag equal.  A criterion that is absent
    asks nothing. *)
Definition meets `{StrLower} (q : Query.t) (l : ListingRead.t) : Prop :=
  (forall v, Query.min_rent q = Some v ->
     PrimFloat.leb v (ListingRead.monthly_rent l) = true)
  /\ (forall v, Query.max_rent q = Some v ->
     PrimFloat.leb (ListingRead.monthly_rent l) v = true)
  /\ (forall v, Query.min_bedrooms q = Some v -> v <= ListingRead.num_bedrooms l)
  /\ (forall v, Query.max_bedrooms q = Some v -> ListingRead.num_bedrooms l <= v)
  /\ (forall v, Query.min_bathrooms q = Some v ->
     count_at_least (ListingRead.num_bathrooms l) v)
  /\ (forall v, Query.max_bathrooms q = Some v ->
     count_at_most (ListingRead.num_bathrooms l) v)
  /\ (forall v, Query.min_sqft q = Some v ->
     v <= default 0 (ListingRead.square_feet l))
  /\ (forall v, Query.max_sqft q = Some v ->
     default 0 (ListingRead.square_feet l) <= v)
  /\ (forall v, Query.is_available q = Some v -> ListingRead.is_available l = v)
  /\ (forall v, Query.amenities q = Some v ->
     forall a, a ∈ v -> a ∈ ListingRead.amenities l)
  /\ (forall v, Query.city q = Some v ->
     lower (AddressRead.city (ListingRead.address l)) = lower v)
  /\ (forall v, Query.state q = Some v ->
     exists l_state,
       AddressRead.state (ListingRead.address l) = Some l_state
       /\ lower l_state = lower v).

(** A text criterion as the handler takes it: the empty text counts as not
    supplied. *)
Definition supplied_text (arg : option string) : option string :=
  match arg with
  | Some EmptyString => None
  | _ => arg
  end.

(** The query with its city and state criteria taken that way. *)
Definition effective (q : Query.t) : Query.t :=
  Query.with_city (supplied_text (Query.city q))
    (Query.with_state (supplied_text (Query.state q)) q).

(** The query that supplies the city only. *)
Definition city_only (city : string) : Query.t :=
  Query.with_city (Some city) Query.none.

(** One [if ...: results = [...]] step of the handler. *)
Definition stage {A} (arg : option A) (test : A -> ListingRead.t -> bool)
    (results : list ListingRead.t) : list ListingRead.t :=
  match arg with
  | Some v => comprehension (test v) results
  | None => results
  end.

Definition guarded_stage {A} `{Truthy A} (arg : option A)
    (test : A -> ListingRead.t -> bool)
    (results : list ListingRead.t) : list ListingRead.t :=
  match arg with
  | Some v => if truthy v then comprehension (test v) results else results
  | None => results
  end.

(** The value a computation returned ([None] when it raised). *)
Definition returned {A} (r : Outcome A * World) : option A :=
  match fst r with
  | Return a => Some a
  | Raise _ => None
  end.

(** ** What the builders produce *)

(** The address built when the clock has been read [reads] times and the
    generator used [calls] times. *)
Definition address_of (env : Env) (calls reads : nat) (addr : AddressCreate.t)
    : AddressRead.t :=
  {| AddressRead.id := uuid4_at env calls;
     AddressRead.street := AddressCreate.street addr;
     AddressRead.city := AddressCreate.city addr;
     AddressRead.state := AddressCreate.state addr;
     AddressRead.postal_code := AddressCreate.postal_code addr;
     AddressRead.country := AddressCreate.country addr;
     AddressRead.created_at := utcnow_at env reads;
     AddressRead.updated_at := utcnow_at env reads |}.

(** The listing built in the same situation: its own identifier and instant
    come first, those of its address next. *)
Definition listing_of (env : Env) (calls reads : nat) (payload : ListingCreate.t)
    : ListingRead.t :=
  {| ListingRead.id := uuid4_at env calls;
     ListingRead.title := ListingCreate.title payload;
     ListingRead.description := ListingCreate.description payload;
     ListingRead.monthly_rent := ListingCreate.monthly_rent payload;
     ListingRead.num_bedrooms := ListingCreate.num_bedrooms payload;
     ListingRead.num_bathrooms := ListingCreate.num_bathrooms payload;
     ListingRead.square_feet := ListingCreate.square_feet payload;
     ListingRead.amenities := ListingCreate.amenities payload;
     ListingRead.is_available := ListingCreate.is_available payload;
     ListingRead.address :=
       address_of env (S calls) (S reads) (ListingCreate.address payload);
     ListingRead.created_at := utcnow_at env reads;
     ListingRead.updated_at := utcnow_at env reads |}.

(** The world after [calls] more identifiers and [reads] more clock
    readings. *)
Definition advance (calls reads : nat) (w : World) : World :=
  {| listings_db := listings_db w;
     uuid_calls := (calls + uuid_calls w)%nat;
     clock_reads := (reads + clock_reads w)%nat |}.

(** ** The invariant of the dictionary *)

(** Update is not before creation, for a listing and for its address. *)
Definition timestamps_ordered (l : ListingRead.t) : Prop :=
  ListingRead.created_at l <= ListingRead.updated_at l
  /\ AddressRead.created_at (ListingRead.address l)
     <= AddressRead.updated_at (ListingRead.address l).

(** Every record sits under its own identifier, its timestamps are ordered,
    and its update timestamp is a reading the clock has already given. *)
Definition store_invariant (env : Env) (w : World) : Prop :=
  forall k l, listings_db w !! k = Some l ->
    ListingRead.id l = k
    /\ timestamps_ordered l
    /\ exists i, (i < clock_reads w)%nat /\ ListingRead.updated_at l = utcnow_at env i.

(** ** Sample data for the concrete runs *)

Definition sample_env : Env :=
  {| uuid4_at := fun n => N.of_nat (S n);
     utcnow_at := fun n => 1000 * Z.of_nat n |}.

(** A generator that keeps returning the same identifier. *)
Definition stuck_env : Env :=
  {| uuid4_at := fun _ => 7%N;
     utcnow_at := fun n => Z.of_nat n |}.

Definition sample_address : AddressCreate.t :=
  AddressCreate.mk "123 Main St" "New York" (Some "NY") (Some "10001") (Some "USA").

Definition stateless_address : AddressCreate.t :=
  AddressCreate.mk "1 Harbour Rd" "Boston" None None None.

Definition sample_payload (rent : float) : ListingCreate.t :=
  ListingCreate.mk "Spacious 2-Bedroom Apartment in Downtown"
    (Some "Modern apartment close to subway and restaurants.")
    rent 2 1 (Some 900) ["Gym"; "Pool"] true sample_address.

Definition bare_payload : ListingCreate.t :=
  ListingCreate.mk "Studio" None 800%float 0 1 None [] true stateless_address.

(** Three listings posted to the fresh process. *)
Definition sample_requests : list Request :=
  [POST (sample_payload 1000%float);
   POST (sample_payload 1500%float);
   POST (sample_payload 2000%float)].

Definition sample_world : World :=
  @serve_all ascii_str_lower sample_env sample_requests initial.

(** One listing without state and without square footage. *)
Definition bare_world : World :=
  @serve_all ascii_str_lower sample_env [POST bare_payload] initial.

(** The same payload posted twice to a process whose generator is stuck. *)
Definition stuck_world : World :=
  @serve_all ascii_str_lower stuck_env [POST bare_payload] initial.

(** A process whose wall clock is set back by 500 after its first two
    readings, with one listing posted before that. *)
Definition rewound_env : Env :=
  {| uuid4_at := fun n => N.of_nat (S n);
     utcnow_at := fun n =>
       if (n <? 2)%nat then 1000 + Z.of_nat n else 500 + Z.of_nat n |}.

Definition rewound_world : World :=
  @serve_all ascii_str_lower rewound_env [POST bare_payload] initial.

Definition rent_between (lo hi : float) : Query.t :=
  Query.mk (Some lo) (Some hi) None None None None None None None None None None.

(** ** The process seen from a client *)

Definition status_code_of {A} (r : Response A) : Z :=
  match r with
  | Success status_code _ => status_code
  | Failure status_code _ => status_code
  end.

(** The status a request is answered with, and the world it leaves. *)
Definition answer `{StrLower} (env : Env) (r : Request) (w : World) : Z * World :=
  match r with
  | POST payload =>
      (status_code_of (fst (post_listings payload env w)),
       snd (post_listings payload env w))
  | GET q =>
      (status_code_of (fst (get_listings q env w)), snd (get_listings q env w))
  | PUT listing_id payload =>
      (status_code_of (fst (put_listing listing_id payload env w)),
       snd (put_listing listing_id payload env w))
  | DELETE listing_id =>
      (status_code_of (fst (delete_listing_route listing_id env w)),
       snd (delete_listing_route listing_id env w))
  end.

(** Every record sits under its own identifier. *)
Definition keys_are_ids (w : World) : Prop :=
  forall k l, listings_db w !! k = Some l -> ListingRead.id l = k.

(** A generator that never hands out the same identifier twice. *)
Definition never_repeats (env : Env) : Prop :=
  forall i j : nat, uuid4_at env i = uuid4_at env j -> i = j.

(** Every key and every address identifier in the dictionary is one the
    generator has handed out, the key before the address identifier. *)
Definition ids_generated (env : Env) (w : World) : Prop :=
  forall k l, listings_db w !! k = Some l ->
    exists i j : nat,
      (i < j)%nat /\ (j < uuid_calls w)%nat
      /\ k = uuid4_at env i
      /\ AddressRead.id (ListingRead.address l) = uuid4_at env j.

(** No address identifier is a key, and two records do not share one. *)
Definition ids_distinct (w : World) : Prop :=
  forall k l k' l',
    listings_db w !! k = Some l -> listings_db w !! k' = Some l' ->
    AddressRead.id (ListingRead.address l) ≠ k'
    /\ (k ≠ k' ->
        AddressRead.id (ListingRead.address l)
        ≠ AddressRead.id (ListingRead.address l')).

(** The other keyword arguments of [list_listings], replaced one at a
    time. *)
Definition with_min_rent (v : option float) (q : Query.t) : Query.t :=
  Query.mk v (Query.max_rent q) (Query.min_bedrooms q) (Query.max_bedrooms q)
    (Query.min_bathrooms q) (Query.max_bathrooms q) (Query.min_sqft q)
    (Query.max_sqft q) (Query.amenities q) (Query.city q) (Query.state q)
    (Query.is_available q).

Definition with_max_rent (v : option float) (q : Query.t) : Query.t :=
  Query.mk (Query.min_rent q) v (Query.min_bedrooms q) (Query.max_bedrooms q)
    (Query.min_bathrooms q) (Query.max_bathrooms q) (Query.min_sqft q)
    (Query.max_sqft q) (Query.amenities q) (Query.city q) (Query.state q)
    (Query.is_available q).

Definition with_min_bedrooms (v : option Z) (q : Query.t) : Query.t :=
  Query.mk (Query.min_rent q) (Query.max_rent q) v (Query.max_bedrooms q)
    (Query.min_bathrooms q) (Query.max_bathrooms q) (Query.min_sqft q)
    (Query.max_sqft q) (Query.amenities q) (Query.city q) (Query.state q)
    (Query.is_available q).

Definition with_max_bedrooms (v : option Z) (q : Query.t) : Query.t :=
  Query.mk (Query.min_rent q) (Query.max_rent q) (Query.min_bedrooms q) v
    (Query.min_bathrooms q) (Query.max_bathrooms q) (Query.min_sqft q)
    (Query.max_sqft q) (Query.amenities q) (Query.city q) (Query.state q)
    (Query.is_available q).

Definition with_min_bathrooms (v : option float) (q : Query.t) : Query.t :=
  Query.mk (Query.min_rent q) (Query.max_rent q) (Query.min_bedrooms q)
    (Query.max_bedrooms q) v (Query.max_bathrooms q) (Query.min_sqft q)
    (Query.max_sqft q) (Query.amenities q) (Query.city q) (Query.state q)
    (Query.is_available q).

Definition with_max_bathrooms (v : option float) (q : Query.t) : Query.t :=
  Query.mk (Query.min_rent q) (Query.max_rent q) (Query.min_bedrooms q)
    (Query.max_bedrooms q) (Query.min_bathrooms q) v (Query.min_sqft q)
    (Query.max_sqft q) (Query.amenities q) (Query.city q) (Query.state q)
    (Query.is_available q).

(** ** The defaults of [ListingBase] *)

(** A request body for [ListingCreate]: the fields without a default are
    there, the others may be left out ([None]).  For [description] and
    [square_feet], whose default is [None], leaving out and sending null
    come to the same. *)
Module ListingBody.
Record t := mk {
  title : string;
  description : option string;
  monthly_rent : float;
  num_bedrooms : Z;
  num_bathrooms : Z;
  square_feet : option Z;
  amenities : option (list string);
  is_available : option bool;
  address : AddressCreate.t
}.
End ListingBody.

(** The payload the model gives for a body: [amenities] defaults to a new
    empty list ([default_factory=list]) and [is_available] to [True]. *)
Definition listing_create_of (body : ListingBody.t) : ListingCreate.t :=
  {| ListingCreate.title := ListingBody.title body;
     ListingCreate.description := ListingBody.description body;
     ListingCreate.monthly_rent := ListingBody.monthly_rent body;
     ListingCreate.num_bedrooms := ListingBody.num_bedrooms body;
     ListingCreate.num_bathrooms := ListingBody.num_bathrooms body;
     ListingCreate.square_feet := ListingBody.square_feet body;
     ListingCreate.amenities := default [] (ListingBody.amenities body);
     ListingCreate.is_available := default true (ListingBody.is_available body);
     ListingCreate.address := ListingBody.address body |}.

(** A body with the required fields only. *)
Definition minimal_body : ListingBody.t :=
  ListingBody.mk "Studio" None 800%float 0 1 None None None stateless_address.

(** The record [update_listing] stores for [payload] over [existing]. *)
Definition updated_of (env : Env) (w : World) (listing_id : UUID)
    (payload : ListingCreate.t) (existing : ListingRead.t) : ListingRead.t :=
  {| ListingRead.id := listing_id;
     ListingRead.title := ListingCreate.title payload;
     ListingRead.description := ListingCreate.description payload;
     ListingRead.monthly_rent := ListingCreate.monthly_rent payload;
     ListingRead.num_bedrooms := ListingCreate.num_bedrooms payload;
     ListingRead.num_bathrooms := ListingCreate.num_bathrooms payload;
     ListingRead.square_feet := ListingCreate.square_feet payload;
     ListingRead.amenities := ListingCreate.amenities payload;
     ListingRead.is_available := ListingCreate.is_available payload;
     ListingRead.address :=
       address_of env (uuid_calls w) (clock_reads w) (ListingCreate.address payload);
     ListingRead.created_at := ListingRead.created_at existing;
     ListingRead.updated_at := utcnow_at env (S (clock_reads w)) |}.

(** What each request is answered with and what it leaves, case by case. *)
Definition answer_cases (env : Env) (r : Request) (w : World) : Z * World :=
  match r with
  | POST payload =>
      match listings_db w !! uuid4_at env (uuid_calls w) with
      | Some _ => (400, advance 2 2 w)
      | None =>
          (201,
           with_db (advance 2 2 w)
             (<[uuid4_at env (uuid_calls w) :=
                  listing_of env (uuid_calls w) (clock_reads w) payload]>
                (listings_db w)))
      end
  | GET _ => (200, w)
  | PUT listing_id payload =>
      match listings_db w !! listing_id with
      | Some existing =>
          (200,
           with_db (advance 1 2 w)
             (<[listing_id := updated_of env w listing_id payload existing]>
                (listings_db w)))
      | None => (404, w)
      end
  | DELETE listing_id =>
      match listings_db w !! listing_id with
      | Some _ => (204, with_db w (delete listing_id (listings_db w)))
      | None => (404, w)
      end
  end.

(** * Properties *)

(** ** The Python operations on concrete values *)

Example int_ge_float_above : int_ge_float 2 1.5%float = true.
Proof. reflexivity. Qed.

Example int_ge_float_below : int_ge_float 1 1.5%float = false.
Proof. reflexivity. Qed.

Example int_le_float_below : int_le_float 1 1.5%float = true.
Proof. reflexivity. Qed.

Example int_le_float_equal : int_le_float 2 2%float = true.
Proof. reflexivity. Qed.

Example int_ge_float_negative : int_ge_float (-1) (-0.5)%float = false.
Proof. reflexivity. Qed.

(** The integer is not rounded: 2^53 + 1 is above the float 2^53. *)
Example int_le_float_exact :
  int_le_float (2 ^ 53 + 1) 9007199254740992%float = false
  /\ int_ge_float (2 ^ 53 + 1) 9007199254740992%float = true.
Proof. split; reflexivity. Qed.

Example int_float_nan :
  int_ge_float 0 PrimFloat.nan = false /\ int_le_float 0 PrimFloat.nan = false.
Proof. split; reflexivity. Qed.

Example int_float_infinity :
  int_le_float (10 ^ 400) PrimFloat.infinity = true
  /\ int_ge_float (10 ^ 400) PrimFloat.infinity = false
  /\ int_ge_float (- 10 ^ 400) PrimFloat.neg_infinity = true.
Proof. repeat split; reflexivity. Qed.

Example float_ge_nan :
  float_ge PrimFloat.nan 0%float = false /\ float_le PrimFloat.nan 0%float = false.
Proof. split; reflexivity. Qed.

Example or_int_values :
  or_int None 0 = 0 /\ or_int (Some 0) 0 = 0 /\ or_int (Some 900) 0 = 900.
Proof. repeat split; reflexivity. Qed.

Example ascii_lower_new_york : ascii_lower "New York" = "new york".
Proof. reflexivity. Qed.

Example ascii_lower_keeps_others : ascii_lower "St. John's-42 [Z]" = "st. john's-42 [z]".
Proof. reflexivity. Qed.

Example truthy_values :
  truthy (Some "NY") = true /\ truthy (Some EmptyString) = false
  /\ truthy (@None string) = false /\ truthy (Some (@nil string)) = false
  /\ truthy (Some ["Gym"]) = true.
Proof. repeat split; reflexivity. Qed.

Example sample_world_contents :
  listings_db sample_world !! 1%N =
    Some (listing_of sample_env 0 0 (sample_payload 1000%float))
  /\ listings_db sample_world !! 3%N =
    Some (listing_of sample_env 2 2 (sample_payload 1500%float))
  /\ listings_db sample_world !! 5%N =
    Some (listing_of sample_env 4 4 (sample_payload 2000%float))
  /\ listings_db sample_world !! 2%N = None
  /\ uuid_calls sample_world = 6%nat
  /\ clock_reads sample_world = 6%nat.
Proof. repeat split; vm_compute; reflexivity. Qed.

(** ** Lists and the dictionary *)

Lemma comprehension_twice (p1 p2 : ListingRead.t -> bool) rs :
  List.filter p2 (List.filter p1 rs) = List.filter (fun l => p1 l && p2 l) rs.
Proof.
  induction rs as [|r rs IH]; simpl; [reflexivity|].
  destruct (p1 r); simpl; [destruct (p2 r)|]; rewrite IH; reflexivity.
Qed.

Lemma comprehension_all (rs : list ListingRead.t) :
  List.filter (fun _ => true) rs = rs.
Proof. induction rs as [|r rs IH]; simpl; congruence. Qed.

Lemma comprehension_perm (p : ListingRead.t -> bool) rs rs' :
  Permutation rs rs' -> Permutation (List.filter p rs) (List.filter p rs').
Proof.
  induction 1 as [|x l l' _ IH|x y l|l l' l'' _ IH1 _ IH2]; simpl.
  - constructor.
  - destruct (p x); [constructor|]; exact IH.
  - destruct (p x), (p y); try reflexivity. apply perm_swap.
  - etransitivity; eassumption.
Qed.

Lemma elem_of_comprehension (p : ListingRead.t -> bool) rs l :
  l ∈ List.filter p rs <-> l ∈ rs /\ p l = true.
Proof. rewrite !list_elem_of_In. apply filter_In. Qed.

Lemma elem_of_stored w l :
  l ∈ stored w <-> exists k, listings_db w !! k = Some l.
Proof.
  unfold stored. rewrite list_elem_of_fmap. split.
  - intros [[k l'] [-> Hin]]. exists k. by apply elem_of_map_to_list in Hin.
  - intros [k Hk]. exists (k, l). split; [reflexivity|]. by apply elem_of_map_to_list.
Qed.

(** ** The steps of [list_listings] as one filter *)

Lemma stage_supplied {A} (arg : option A) test rs :
  stage arg test rs = List.filter (fun l => supplied arg (fun v => test v l)) rs.
Proof.
  destruct arg as [v|]; simpl; [reflexivity|].
  symmetry. apply comprehension_all.
Qed.

Lemma guarded_stage_supplied {A} `{Truthy A} (arg : option A) test rs :
  guarded_stage arg test rs =
  List.filter (fun l => supplied arg (fun v => if truthy v then test v l else true)) rs.
Proof.
  destruct arg as [v|]; simpl.
  - destruct (truthy v); [reflexivity|]. symmetry. apply comprehension_all.
  - symmetry. apply comprehension_all.
Qed.

Lemma list_listings_stages `{StrLower} q env w :
  list_listings q env w =
  (Return
     (guarded_stage (Query.state q)
        (fun state l =>
           match AddressRead.state (ListingRead.address l) with
           | Some l_state => truthy l_state && str_eq (lower l_state) (lower state)
           | None => false
           end)
     (guarded_stage (Query.city q)
        (fun city l =>
           str_eq (lower (AddressRead.city (ListingRead.address l))) (lower city))
     (guarded_stage (Query.amenities q)
        (fun amenities l =>
           forallb (fun a => str_in a (ListingRead.amenities l)) amenities)
     (stage (Query.is_available q)
        (fun v l => Bool.eqb (ListingRead.is_available l) v)
     (stage (Query.max_sqft q)
        (fun v l => or_int (ListingRead.square_feet l) 0 <=? v)
     (stage (Query.min_sqft q)
        (fun v l => or_int (ListingRead.square_feet l) 0 >=? v)
     (stage (Query.max_bathrooms q)
        (fun v l => int_le_float (ListingRead.num_bathrooms l) v)
     (stage (Query.min_bathrooms q)
        (fun v l => int_ge_float (ListingRead.num_bathrooms l) v)
     (stage (Query.max_bedrooms q)
        (fun v l => ListingRead.num_bedrooms l <=? v)
     (stage (Query.min_bedrooms q)
        (fun v l => ListingRead.num_bedrooms l >=? v)
     (stage (Query.max_rent q)
        (fun v l => float_le (ListingRead.monthly_rent l) v)
     (stage (Query.min_rent q)
        (fun v l => float_ge (ListingRead.monthly_rent l) v)
        (stored w))))))))))))),
   w).
Proof. reflexivity. Qed.

Lemma list_listings_run `{StrLower} q env w :
  list_listings q env w = (Return (List.filter (passes q) (stored w)), w).
Proof.
  rewrite list_listings_stages.
  rewrite !guarded_stage_supplied, !stage_supplied, !comprehension_twice.
  do 2 f_equal. apply List.filter_ext. intros l.
  unfold passes, amenities_test, city_test, state_test.
  rewrite !andb_assoc. reflexivity.
Qed.

Lemma supplied_true {A} (arg : option A) test :
  supplied arg test = true <-> forall v, arg = Some v -> test v = true.
Proof.
  destruct arg as [v|]; simpl; split; intros Hv; try done.
  - by intros ? [= <-].
  - by apply Hv.
Qed.

(** ** Running the builders and the handlers *)

Lemma or_list_nil {A} (x : list A) : or_list x [] = x.
Proof. destruct x; reflexivity. Qed.

Lemma make_address_read_run addr env w :
  make_address_read addr env w =
  (Return (address_of env (uuid_calls w) (clock_reads w) addr), advance 1 1 w).
Proof. reflexivity. Qed.

Lemma make_listing_read_run payload env w :
  make_listing_read payload env w =
  (Return (listing_of env (uuid_calls w) (clock_reads w) payload), advance 2 2 w).
Proof.
  unfold make_listing_read, bind, utcnow, uuid4, ret. simpl.
  unfold listing_of. rewrite or_list_nil. reflexivity.
Qed.

Lemma create_listing_conflict payload env w :
  is_Some (listings_db w !! uuid4_at env (uuid_calls w)) ->
  create_listing payload env w =
  (Raise (HTTPException 400 "Listing with this ID already exists"), advance 2 2 w).
Proof.
  intros Hin. unfold create_listing, bind.
  rewrite make_listing_read_run. simpl.
  rewrite bool_decide_eq_true_2 by exact Hin. reflexivity.
Qed.

Lemma create_listing_fresh payload env w :
  listings_db w !! uuid4_at env (uuid_calls w) = None ->
  create_listing payload env w =
  (Return (listing_of env (uuid_calls w) (clock_reads w) payload),
   with_db (advance 2 2 w)
     (<[uuid4_at env (uuid_calls w) :=
          listing_of env (uuid_calls w) (clock_reads w) payload]> (listings_db w))).
Proof.
  intros Hout. unfold create_listing, bind.
  rewrite make_listing_read_run. simpl.
  rewrite bool_decide_eq_false_2 by (rewrite Hout; apply is_Some_None).
  unfold db_getitem, db_setitem. simpl.
  rewrite lookup_insert_eq. reflexivity.
Qed.

(** The record [update_listing] builds for [payload] over [existing]. *)
Lemma update_listing_found listing_id payload existing env w :
  listings_db w !! listing_id = Some existing ->
  let new_listing :=
    {| ListingRead.id := listing_id;
       ListingRead.title := ListingCreate.title payload;
       ListingRead.description := ListingCreate.description payload;
       ListingRead.monthly_rent := ListingCreate.monthly_rent payload;
       ListingRead.num_bedrooms := ListingCreate.num_bedrooms payload;
       ListingRead.num_bathrooms := ListingCreate.num_bathrooms payload;
       ListingRead.square_feet := ListingCreate.square_feet payload;
       ListingRead.amenities := ListingCreate.amenities payload;
       ListingRead.is_available := ListingCreate.is_available payload;
       ListingRead.address :=
         address_of env (uuid_calls w) (clock_reads w) (ListingCreate.address payload);
       ListingRead.created_at := ListingRead.created_at existing;
       ListingRead.updated_at := utcnow_at env (S (clock_reads w)) |} in
  update_listing listing_id payload env w =
  (Return new_listing,
   with_db (advance 1 2 w) (<[listing_id := new_listing]> (listings_db w))).
Proof.
  intros Hin. unfold update_listing, bind, db_get. simpl. rewrite Hin. reflexivity.
Qed.

Lemma update_listing_missing listing_id payload env w :
  listings_db w !! listing_id = None ->
  update_listing listing_id payload env w =
  (Raise (HTTPException 404 "Listing not found"), w).
Proof.
  intros Hout. unfold update_listing, bind, db_get. simpl. rewrite Hout. reflexivity.
Qed.

Lemma delete_listing_found listing_id existing env w :
  listings_db w !! listing_id = Some existing ->
  delete_listing listing_id env w =
  (Return tt, with_db w (delete listing_id (listings_db w))).
Proof.
  intros Hin. unfold delete_listing, bind, db_contains, db_delitem. simpl.
  rewrite bool_decide_eq_true_2 by (rewrite Hin; eauto). simpl.
  rewrite Hin. reflexivity.
Qed.

Lemma delete_listing_missing listing_id env w :
  listings_db w !! listing_id = None ->
  delete_listing listing_id env w =
  (Raise (HTTPException 404 "Course no found."), w).
Proof.
  intros Hout. unfold delete_listing, bind, db_contains. simpl.
  rewrite bool_decide_eq_false_2 by (rewrite Hout; apply is_Some_None).
  reflexivity.
Qed.

(** ** Filtering *)

(** A bound that is a number admits the rent equal to it. *)
Lemma float_bound_inclusive (v : float) :
  PrimFloat.is_nan v = false -> PrimFloat.leb v v = true.
Proof.
  unfold PrimFloat.is_nan. rewrite negb_false_iff.
  rewrite FloatAxioms.eqb_spec, FloatAxioms.leb_spec.
  unfold SFeqb, SFleb. destruct (SFcompare _ _) as [[]|]; done.
Qed.

Lemma stored_three w k1 k2 k3 l1 l2 l3 :
  k1 ≠ k2 -> k1 ≠ k3 -> k2 ≠ k3 ->
  listings_db w = <[k1 := l1]> (<[k2 := l2]> (<[k3 := l3]> ∅)) ->
  Permutation (stored w) [l1; l2; l3].
Proof.
  intros H12 H13 H23 Hdb. unfold stored. rewrite Hdb.
  rewrite map_to_list_insert
    by (rewrite !lookup_insert_ne by done; apply lookup_empty).
  rewrite map_to_list_insert
    by (rewrite lookup_insert_ne by done; apply lookup_empty).
  rewrite map_to_list_insert by apply lookup_empty.
  rewrite map_to_list_empty. reflexivity.
Qed.

Lemma rent_window `{StrLower} env w k1 k2 k3 l1 l2 l3 :
  k1 ≠ k2 -> k1 ≠ k3 -> k2 ≠ k3 ->
  listings_db w = <[k1 := l1]> (<[k2 := l2]> (<[k3 := l3]> ∅)) ->
  ListingRead.monthly_rent l1 = 1000%float ->
  ListingRead.monthly_rent l2 = 1500%float ->
  ListingRead.monthly_rent l3 = 2000%float ->
  list_listings (rent_between 1200 1800) env w = (Return [l2], w).
Proof.
  intros H12 H13 H23 Hdb R1 R2 R3. rewrite list_listings_run.
  do 2 f_equal. apply Permutation_singleton_r.
  rewrite (comprehension_perm _ _ _ (stored_three _ _ _ _ _ _ _ H12 H13 H23 Hdb)).
  unfold passes, rent_between. simpl. rewrite R1, R2, R3.
  vm_compute. reflexivity.
Qed.

(** ** Create *)

(** C3.  [create_listing] builds the record, whose identifier is the one the
    generator hands out; when that identifier is already a key of the
    dictionary the handler raises its conflict error (an [HTTPException]
    with status 400 and the detail "Listing with this ID already exists")
    and the dictionary is as before; otherwise the record is inserted under
    its identifier, nothing else in the dictionary changes, and the record
    is returned under the status 201 of the route. *)
Theorem create_listing_conflict_or_created payload env w :
  let new_id := uuid4_at env (uuid_calls w) in
  let listing := listing_of env (uuid_calls w) (clock_reads w) payload in
  make_listing_read payload env w = (Return listing, advance 2 2 w)
  /\ ListingRead.id listing = new_id
  /\ (is_Some (listings_db w !! new_id) ->
        create_listing payload env w =
          (Raise (HTTPException 400 "Listing with this ID already exists"),
           advance 2 2 w)
        /\ post_listings payload env w =
          (Failure 400 "Listing with this ID already exists", advance 2 2 w)
        /\ listings_db (advance 2 2 w) = listings_db w)
  /\ (listings_db w !! new_id = None ->
        let w' := with_db (advance 2 2 w) (<[new_id := listing]> (listings_db w)) in
        create_listing payload env w = (Return listing, w')
        /\ post_listings payload env w = (Success 201 listing, w')
        /\ listings_db w' !! new_id = Some listing
        /\ forall k, k ≠ new_id -> listings_db w' !! k = listings_db w !! k).
Proof.
  intros new_id listing.
  split; [apply make_listing_read_run|]. split; [reflexivity|]. split.
  - intros Hin. pose proof (create_listing_conflict payload env w Hin) as Hrun.
    split; [exact Hrun|]. split; [|reflexivity].
    unfold post_listings, route. rewrite Hrun. reflexivity.
  - intros Hout w'. pose proof (create_listing_fresh payload env w Hout) as Hrun.
    split; [exact Hrun|]. split.
    + unfold post_listings, route. rewrite Hrun. reflexivity.
    + split; [apply lookup_insert_eq|].
      intros k Hk. simpl. by rewrite lookup_insert_ne.
Qed.

Lemma create_listing_conflict_or_created_witness :
  post_listings bare_payload stuck_env stuck_world =
    (Failure 400 "Listing with this ID already exists", advance 2 2 stuck_world)
  /\ post_listings bare_payload sample_env initial =
    (Success 201 (listing_of sample_env 0 0 bare_payload), bare_world).
Proof.
  split.
  - refine (proj1 (proj2 (proj1 (proj2 (proj2
              (create_listing_conflict_or_created bare_payload stuck_env stuck_world)))
              _))).
    vm_compute. eauto.
  - refine (proj1 (proj2 (proj2 (proj2 (proj2
              (create_listing_conflict_or_created bare_payload sample_env initial)))
              _))).
    vm_compute. reflexivity.
Defined.

(** C5.  When [create_listing] succeeds, listing with no criterion right
    after it returns a sequence that contains the created record, and every
    input field of that record, the address included, has the value of the
    payload. *)
Theorem create_then_list `{StrLower} payload env w listing w' :
  create_listing payload env w = (Return listing, w') ->
  exists results,
    list_listings Query.none env w' = (Return results, w')
    /\ listing ∈ results
    /\ ListingRead.title listing = ListingCreate.title payload
    /\ ListingRead.description listing = ListingCreate.description payload
    /\ ListingRead.monthly_rent listing = ListingCreate.monthly_rent payload
    /\ ListingRead.num_bedrooms listing = ListingCreate.num_bedrooms payload
    /\ ListingRead.num_bathrooms listing = ListingCreate.num_bathrooms payload
    /\ ListingRead.square_feet listing = ListingCreate.square_feet payload
    /\ ListingRead.amenities listing = ListingCreate.amenities payload
    /\ ListingRead.is_available listing = ListingCreate.is_available payload
    /\ AddressRead.street (ListingRead.address listing) =
         AddressCreate.street (ListingCreate.address payload)
    /\ AddressRead.city (ListingRead.address listing) =
         AddressCreate.city (ListingCreate.address payload)
    /\ AddressRead.state (ListingRead.address listing) =
         AddressCreate.state (ListingCreate.address payload)
    /\ AddressRead.postal_code (ListingRead.address listing) =
         AddressCreate.postal_code (ListingCreate.address payload)
    /\ AddressRead.country (ListingRead.address listing) =
         AddressCreate.country (ListingCreate.address payload).
Proof.
  intros Hrun.
  destruct (listings_db w !! uuid4_at env (uuid_calls w)) as [old|] eqn:Hkey.
  - rewrite create_listing_conflict in Hrun by eauto. discriminate Hrun.
  - rewrite create_listing_fresh in Hrun by exact Hkey.
    injection Hrun as <- <-.
    eexists. split; [apply list_listings_run|]. split.
    + apply elem_of_comprehension. split.
      * apply elem_of_stored. eexists. apply lookup_insert_eq.
      * reflexivity.
    + repeat split.
Qed.

Lemma create_then_list_witness :
  exists results,
    @list_listings ascii_str_lower Query.none sample_env bare_world =
      (Return results, bare_world)
    /\ listing_of sample_env 0 0 bare_payload ∈ results
    /\ ListingRead.monthly_rent (listing_of sample_env 0 0 bare_payload) = 800%float
    /\ AddressRead.city (ListingRead.address (listing_of sample_env 0 0 bare_payload)) =
         "Boston".
Proof.
  destruct (@create_then_list ascii_str_lower bare_payload sample_env initial
              (listing_of sample_env 0 0 bare_payload) bare_world eq_refl)
    as (results & Hrun & Hin & Hfields).
  exists results. split; [exact Hrun|]. split; [exact Hin|].
  split; [apply Hfields|]. apply Hfields.
Defined.

(** ** Timestamps *)

Lemma store_invariant_initial env : store_invariant env initial.
Proof. intros k l Hk. simpl in Hk. by rewrite lookup_empty in Hk. Qed.

Lemma store_invariant_advance env calls reads w :
  store_invariant env w -> store_invariant env (advance calls reads w).
Proof.
  intros Hinv k l Hk. destruct (Hinv k l Hk) as (Hid & Hord & i & Hi & Hup).
  split; [exact Hid|]. split; [exact Hord|].
  exists i. simpl. split; [lia | exact Hup].
Qed.

Lemma listing_of_ordered env calls reads payload :
  timestamps_ordered (listing_of env calls reads payload).
Proof. split; simpl; lia. Qed.

Lemma store_invariant_post env payload w :
  store_invariant env w -> store_invariant env (snd (post_listings payload env w)).
Proof.
  intros Hinv. unfold post_listings, route.
  destruct (listings_db w !! uuid4_at env (uuid_calls w)) as [old|] eqn:Hkey.
  - rewrite create_listing_conflict by eauto. simpl.
    by apply store_invariant_advance.
  - rewrite create_listing_fresh by exact Hkey. simpl.
    intros k l Hk. simpl in Hk.
    destruct (decide (uuid4_at env (uuid_calls w) = k)) as [<-|Hne].
    + rewrite lookup_insert_eq in Hk. injection Hk as <-.
      split; [reflexivity|]. split; [apply listing_of_ordered|].
      exists (clock_reads w). simpl. split; [lia | reflexivity].
    + rewrite lookup_insert_ne in Hk by exact Hne.
      by apply (store_invariant_advance env 2 2 w Hinv k l).
Qed.

Lemma store_invariant_put env listing_id payload w :
  monotone_clock env ->
  store_invariant env w ->
  store_invariant env (snd (put_listing listing_id payload env w)).
Proof.
  intros Hclock Hinv. unfold put_listing, route.
  destruct (listings_db w !! listing_id) as [existing|] eqn:Hkey.
  - rewrite (update_listing_found _ _ _ _ _ Hkey). simpl.
    intros k l Hk. simpl in Hk.
    destruct (decide (listing_id = k)) as [<-|Hne].
    + rewrite lookup_insert_eq in Hk. injection Hk as <-.
      destruct (Hinv _ _ Hkey) as (_ & [Hord _] & i & Hi & Hup).
      split; [reflexivity|]. split.
      * split; simpl; [|lia].
        etransitivity; [exact Hord|]. rewrite Hup. apply Hclock. lia.
      * exists (S (clock_reads w)). simpl. split; [lia | reflexivity].
    + rewrite lookup_insert_ne in Hk by exact Hne.
      by apply (store_invariant_advance env 1 2 w Hinv k l).
  - rewrite update_listing_missing by exact Hkey. exact Hinv.
Qed.

Lemma store_invariant_delete env listing_id w :
  store_invariant env w ->
  store_invariant env (snd (delete_listing_route listing_id env w)).
Proof.
  intros Hinv. unfold delete_listing_route, route.
  destruct (listings_db w !! listing_id) as [existing|] eqn:Hkey.
  - rewrite (delete_listing_found _ _ _ _ Hkey). simpl.
    intros k l Hk. simpl in Hk.
    apply lookup_delete_Some in Hk as [_ Hk]. by apply Hinv.
  - rewrite delete_listing_missing by exact Hkey. exact Hinv.
Qed.

Lemma store_invariant_serve `{StrLower} env r w :
  monotone_clock env ->
  store_invariant env w -> store_invariant env (serve env r w).
Proof.
  intros Hclock Hinv. destruct r as [payload|q|listing_id payload|listing_id]; unfold serve.
  - by apply store_invariant_post.
  - unfold get_listings, route. rewrite list_listings_run. exact Hinv.
  - by apply store_invariant_put.
  - by apply store_invariant_delete.
Qed.

Lemma reachable_invariant `{StrLower} env w :
  monotone_clock env -> reachable env w -> store_invariant env w.
Proof.
  intros Hclock Hreach. induction Hreach as [|w r _ IH].
  - apply store_invariant_initial.
  - by apply store_invariant_serve.
Qed.

Lemma reachable_serve_all `{StrLower} env rs w :
  reachable env w -> reachable env (serve_all env rs w).
Proof.
  revert w. induction rs as [|r rs IH]; intros w Hreach; simpl; [exact Hreach|].
  apply IH. by constructor.
Qed.

Lemma sample_clock_monotone : monotone_clock sample_env.
Proof. intros i j Hij. simpl. lia. Qed.

Lemma sample_world_reachable : @reachable ascii_str_lower sample_env sample_world.
Proof. apply reachable_serve_all. constructor. Qed.

(** C9.  Each builder stamps its record once: the address and the listing
    it returns have creation and update timestamps equal to the reading the
    builder took of the clock (the address embedded in a listing carries the
    reading of its own builder).  With a clock that never runs backwards,
    every record in the dictionary of a running process, and its address,
    has an update timestamp that is not before its creation timestamp; the
    invariant behind this holds initially and is kept by every request
    (create, list, update, delete). *)
Theorem timestamps_invariant :
  (forall addr env w,
     exists a,
       make_address_read addr env w = (Return a, advance 1 1 w)
       /\ AddressRead.created_at a = utcnow_at env (clock_reads w)
       /\ AddressRead.updated_at a = utcnow_at env (clock_reads w))
  /\ (forall payload env w,
        exists l,
          make_listing_read payload env w = (Return l, advance 2 2 w)
          /\ ListingRead.created_at l = utcnow_at env (clock_reads w)
          /\ ListingRead.updated_at l = utcnow_at env (clock_reads w)
          /\ AddressRead.created_at (ListingRead.address l) =
               utcnow_at env (S (clock_reads w))
          /\ AddressRead.updated_at (ListingRead.address l) =
               utcnow_at env (S (clock_reads w)))
  /\ (forall (SL : StrLower) env,
        monotone_clock env ->
        store_invariant env initial
        /\ (forall w r, store_invariant env w -> store_invariant env (serve env r w))
        /\ (forall w, store_invariant env w ->
              forall l, l ∈ stored w -> timestamps_ordered l)
        /\ (forall w, reachable env w ->
              forall l, l ∈ stored w -> timestamps_ordered l)).
Proof.
  split; [|split].
  - intros addr env w. eexists. split; [apply make_address_read_run|]. by split.
  - intros payload env w. eexists. split; [apply make_listing_read_run|].
    repeat split.
  - intros SL env Hclock.
    assert (Hstored : forall w, store_invariant env w ->
                        forall l, l ∈ stored w -> timestamps_ordered l).
    { intros w Hinv l [k Hk]%elem_of_stored. apply (Hinv k l Hk). }
    split; [apply store_invariant_initial|].
    split; [intros w r; by apply store_invariant_serve|].
    split; [exact Hstored|].
    intros w Hreach. apply Hstored. by apply reachable_invariant.
Qed.

Lemma timestamps_invariant_witness :
  Forall timestamps_ordered (stored sample_world).
Proof.
  apply Forall_forall. intros l Hl.
  exact (proj2 (proj2 (proj2 (proj2 (proj2 timestamps_invariant)
           ascii_str_lower sample_env sample_clock_monotone)))
           sample_world sample_world_reachable l Hl).
Defined.

(** ** Update and delete *)

(** C2, as the code has it.  For an identifier that is in the dictionary and
    any payload, [update_listing] returns the record it stores under that
    identifier.  The record keeps the identifier and the creation timestamp
    of the record it replaces, its update timestamp is the reading of the
    clock taken by the handler, its address is the one [make_address_read]
    builds from the payload at that moment (with the identifier the
    generator hands out then, nothing of the old address), and every other
    field is the payload's.  In a running process whose clock never runs
    backwards the new update timestamp is not before the previous one, and
    the replaced record carried the same identifier. *)
Theorem update_listing_replaces `{StrLower} listing_id payload existing env w :
  listings_db w !! listing_id = Some existing ->
  exists new_listing w',
    update_listing listing_id payload env w = (Return new_listing, w')
    /\ put_listing listing_id payload env w = (Success 200 new_listing, w')
    /\ listings_db w' = <[listing_id := new_listing]> (listings_db w)
    /\ listings_db w' !! listing_id = Some new_listing
    /\ ListingRead.id new_listing = listing_id
    /\ ListingRead.created_at new_listing = ListingRead.created_at existing
    /\ ListingRead.updated_at new_listing = utcnow_at env (S (clock_reads w))
    /\ make_address_read (ListingCreate.address payload) env w =
         (Return (ListingRead.address new_listing), advance 1 1 w)
    /\ AddressRead.id (ListingRead.address new_listing) = uuid4_at env (uuid_calls w)
    /\ uuid_calls w' = S (uuid_calls w)
    /\ ListingRead.title new_listing = ListingCreate.title payload
    /\ ListingRead.description new_listing = ListingCreate.description payload
    /\ ListingRead.monthly_rent new_listing = ListingCreate.monthly_rent payload
    /\ ListingRead.num_bedrooms new_listing = ListingCreate.num_bedrooms payload
    /\ ListingRead.num_bathrooms new_listing = ListingCreate.num_bathrooms payload
    /\ ListingRead.square_feet new_listing = ListingCreate.square_feet payload
    /\ ListingRead.amenities new_listing = ListingCreate.amenities payload
    /\ ListingRead.is_available new_listing = ListingCreate.is_available payload
    /\ (monotone_clock env -> reachable env w ->
          ListingRead.id existing = ListingRead.id new_listing
          /\ ListingRead.updated_at existing <= ListingRead.updated_at new_listing).
Proof.
  intros Hkey. pose proof (update_listing_found _ payload _ env _ Hkey) as Hrun.
  cbv zeta in Hrun. do 2 eexists. split; [exact Hrun|].
  split; [unfold put_listing, route; rewrite Hrun; reflexivity|].
  split; [reflexivity|]. split; [apply lookup_insert_eq|].
  do 14 (split; [reflexivity|]).
  intros Hclock Hreach.
  destruct (reachable_invariant env w Hclock Hreach _ _ Hkey)
    as (Hid & _ & i & Hi & Hup).
  split; [exact Hid|]. simpl. rewrite Hup. apply Hclock. lia.
Qed.

Lemma update_listing_replaces_witness :
  exists new_listing w',
    update_listing 1%N bare_payload sample_env sample_world = (Return new_listing, w')
    /\ listings_db w' !! 1%N = Some new_listing
    /\ ListingRead.created_at new_listing = 0
    /\ ListingRead.updated_at new_listing = 7000
    /\ AddressRead.id (ListingRead.address new_listing) = 7%N
    /\ ListingRead.updated_at (listing_of sample_env 0 0 (sample_payload 1000%float))
       <= ListingRead.updated_at new_listing.
Proof.
  destruct (@update_listing_replaces ascii_str_lower 1%N bare_payload
              (listing_of sample_env 0 0 (sample_payload 1000%float))
              sample_env sample_world eq_refl)
    as (new_listing & w' & Hrun & _ & _ & Hstored & _ & Hcreated & Hupdated
        & _ & Haddr & Hrest).
  exists new_listing, w'.
  split; [exact Hrun|]. split; [exact Hstored|].
  split; [rewrite Hcreated; reflexivity|].
  split; [rewrite Hupdated; reflexivity|].
  split; [rewrite Haddr; reflexivity|].
  apply Hrest; [exact sample_clock_monotone | exact sample_world_reachable].
Defined.

(** C2 as stated fails when the clock is set back between two requests: the
    stored record was last written at 1000, the update reads the clock at
    503 and stores that as the update timestamp. *)
Lemma rewound_clock_counterexample :
  listings_db rewound_world !! 1%N = Some (listing_of rewound_env 0 0 bare_payload)
  /\ ListingRead.updated_at (listing_of rewound_env 0 0 bare_payload) = 1000
  /\ ListingRead.updated_at
       <$> returned (update_listing 1%N bare_payload rewound_env rewound_world)
     = Some 503
  /\ ListingRead.updated_at
       <$> listings_db (snd (update_listing 1%N bare_payload rewound_env rewound_world))
           !! 1%N
     = Some 503
  /\ 503 < 1000.
Proof. repeat split; vm_compute; reflexivity. Qed.

(** C4.  For an identifier that is not in the dictionary, [update_listing]
    and [delete_listing] raise their not-found error (status 404) and the
    world, the dictionary included, is exactly as before.  For an identifier
    that is in the dictionary, [delete_listing] returns nothing under
    status 204 and only removes that key: the identifier is no longer a key,
    every other key keeps its record, and the records left are those that
    were stored under the other keys; the address lived inside the record
    and goes with it (in a running process the removed record is stored
    nowhere else). *)
Theorem missing_or_deleted `{StrLower} listing_id env w :
  (listings_db w !! listing_id = None ->
     (forall payload,
        update_listing listing_id payload env w =
          (Raise (HTTPException 404 "Listing not found"), w)
        /\ put_listing listing_id payload env w =
          (Failure 404 "Listing not found", w))
     /\ delete_listing listing_id env w =
          (Raise (HTTPException 404 "Course no found."), w)
     /\ delete_listing_route listing_id env w =
          (Failure 404 "Course no found.", w))
  /\ (forall existing,
        listings_db w !! listing_id = Some existing ->
        let w' := with_db w (delete listing_id (listings_db w)) in
        delete_listing listing_id env w = (Return tt, w')
        /\ delete_listing_route listing_id env w = (Success 204 tt, w')
        /\ listings_db w' !! listing_id = None
        /\ (forall k, k ≠ listing_id -> listings_db w' !! k = listings_db w !! k)
        /\ (forall l, l ∈ stored w' <->
                      exists k, k ≠ listing_id /\ listings_db w !! k = Some l)
        /\ (monotone_clock env -> reachable env w -> existing ∉ stored w')).
Proof.
  split.
  - intros Hout. split; [intros payload; split|split].
    + by apply update_listing_missing.
    + unfold put_listing, route. by rewrite update_listing_missing.
    + by apply delete_listing_missing.
    + unfold delete_listing_route, route. by rewrite delete_listing_missing.
  - intros existing Hkey w'.
    pose proof (delete_listing_found _ _ env _ Hkey) as Hrun.
    assert (Hleft : forall l, l ∈ stored w' <->
              exists k, k ≠ listing_id /\ listings_db w !! k = Some l).
    { intros l. rewrite elem_of_stored. simpl.
      split.
      - intros [k [Hne Hk]%lookup_delete_Some]. exists k. by split.
      - intros [k [Hne Hk]]. exists k. apply lookup_delete_Some. by split. }
    split; [exact Hrun|].
    split; [unfold delete_listing_route, route; by rewrite Hrun|].
    split; [apply lookup_delete_eq|].
    split; [intros k Hk; simpl; by rewrite lookup_delete_ne|].
    split; [exact Hleft|].
    intros Hclock Hreach [k [Hne Hk]]%Hleft.
    pose proof (reachable_invariant env w Hclock Hreach) as Hinv.
    destruct (Hinv _ _ Hkey) as [Hid _]. destruct (Hinv _ _ Hk) as [Hid' _].
    congruence.
Qed.

Lemma missing_or_deleted_witness :
  (update_listing 9%N bare_payload sample_env sample_world =
     (Raise (HTTPException 404 "Listing not found"), sample_world)
   /\ delete_listing 9%N sample_env sample_world =
     (Raise (HTTPException 404 "Course no found."), sample_world))
  /\ delete_listing_route 3%N sample_env sample_world =
     (Success 204 tt,
      with_db sample_world (delete 3%N (listings_db sample_world)))
  /\ listing_of sample_env 2 2 (sample_payload 1500%float)
     ∉ stored (with_db sample_world (delete 3%N (listings_db sample_world))).
Proof.
  pose proof (@missing_or_deleted ascii_str_lower 9%N sample_env sample_world)
    as [Hmissing _].
  pose proof (@missing_or_deleted ascii_str_lower 3%N sample_env sample_world)
    as [_ Hfound].
  specialize (Hmissing eq_refl).
  specialize (Hfound (listing_of sample_env 2 2 (sample_payload 1500%float)) eq_refl).
  cbv zeta in Hfound.
  destruct Hmissing as (Hput & Hdel & _).
  destruct Hfound as (_ & Hroute & _ & _ & _ & Hgone).
  split; [split; [apply Hput | exact Hdel]|].
  split; [exact Hroute|].
  apply Hgone; [exact sample_clock_monotone | exact sample_world_reachable].
Defined.

(** ** One criterion at a time *)

(** Supplying one more criterion filters the result of the call without
    it. *)
Lemma narrowed `{StrLower} (q q0 : Query.t) (test : ListingRead.t -> bool) env w :
  (forall l, passes q l = passes q0 l && test l) ->
  exists results others,
    list_listings q env w = (Return results, w)
    /\ list_listings q0 env w = (Return others, w)
    /\ forall l, l ∈ results <-> l ∈ others /\ test l = true.
Proof.
  intros Hpasses. do 2 eexists.
  split; [apply list_listings_run|]. split; [apply list_listings_run|].
  intros l. rewrite !elem_of_comprehension, Hpasses, andb_true_iff. tauto.
Qed.

Lemma passes_with_min_sqft `{StrLower} v q l :
  passes (Query.with_min_sqft v q) l =
  passes (Query.with_min_sqft None q) l
  && supplied v (fun v => or_int (ListingRead.square_feet l) 0 >=? v).
Proof. unfold passes. simpl. btauto. Qed.

Lemma passes_with_max_sqft `{StrLower} v q l :
  passes (Query.with_max_sqft v q) l =
  passes (Query.with_max_sqft None q) l
  && supplied v (fun v => or_int (ListingRead.square_feet l) 0 <=? v).
Proof. unfold passes. simpl. btauto. Qed.

Lemma passes_with_amenities `{StrLower} v q l :
  passes (Query.with_amenities v q) l =
  passes (Query.with_amenities None q) l && supplied v (fun v => amenities_test v l).
Proof. unfold passes. simpl. btauto. Qed.

Lemma passes_with_city `{StrLower} v q l :
  passes (Query.with_city v q) l =
  passes (Query.with_city None q) l && supplied v (fun v => city_test v l).
Proof. unfold passes. simpl. btauto. Qed.

Lemma passes_with_state `{StrLower} v q l :
  passes (Query.with_state v q) l =
  passes (Query.with_state None q) l && supplied v (fun v => state_test v l).
Proof. unfold passes. simpl. btauto. Qed.

Lemma passes_with_is_available `{StrLower} v q l :
  passes (Query.with_is_available v q) l =
  passes (Query.with_is_available None q) l
  && supplied v (fun v => Bool.eqb (ListingRead.is_available l) v).
Proof. unfold passes. simpl. btauto. Qed.

Lemma str_eq_true a b : str_eq a b = true <-> a = b.
Proof. apply String.eqb_eq. Qed.

Lemma str_in_elem a xs : str_in a xs = true <-> a ∈ xs.
Proof.
  unfold str_in. rewrite existsb_exists, list_elem_of_In. split.
  - intros [x [Hx ->%str_eq_true]]. exact Hx.
  - intros Ha. exists a. split; [exact Ha | by apply str_eq_true].
Qed.

Lemma truthy_str_true (s : string) : s ≠ EmptyString -> truthy s = true.
Proof. intros Hs. destruct s; [done | reflexivity]. Qed.

Lemma amenities_test_subset req l :
  amenities_test req l = true <->
  forall a, a ∈ req -> a ∈ ListingRead.amenities l.
Proof.
  unfold amenities_test. destruct req as [|a0 req].
  - simpl. split; [|done]. intros _ a Ha. by apply elem_of_nil in Ha.
  - change (truthy (a0 :: req)) with true. cbv iota.
    rewrite forallb_forall. setoid_rewrite str_in_elem.
    setoid_rewrite list_elem_of_In. reflexivity.
Qed.

Lemma city_test_nonempty `{StrLower} c l :
  c ≠ EmptyString ->
  city_test c l = true <->
  lower (AddressRead.city (ListingRead.address l)) = lower c.
Proof.
  intros Hc. unfold city_test. rewrite truthy_str_true by exact Hc.
  apply str_eq_true.
Qed.

Lemma lower_empty `{StrLower} : lower EmptyString = EmptyString.
Proof. by rewrite lower_on_ascii. Qed.

Lemma state_test_nonempty `{StrLower} s l :
  s ≠ EmptyString ->
  state_test s l = true <->
  exists l_state,
    AddressRead.state (ListingRead.address l) = Some l_state
    /\ lower l_state = lower s.
Proof.
  intros Hs. unfold state_test. rewrite truthy_str_true by exact Hs.
  destruct (AddressRead.state (ListingRead.address l)) as [l_state|].
  - rewrite andb_true_iff, str_eq_true. split.
    + intros [_ Heq]. by exists l_state.
    + intros [? [[= <-] Heq]]. split; [|exact Heq].
      apply truthy_str_true. intros ->.
      rewrite lower_empty in Heq. symmetry in Heq.
      by apply lower_nonempty in Heq.
  - split; [done | by intros [? [? _]]].
Qed.

Lemma or_int_default x : or_int x 0 = default 0 x.
Proof.
  destruct x as [v|]; [|reflexivity]. unfold or_int, truthy, truthy_int. simpl.
  destruct (Z.eqb_spec v 0) as [->|]; reflexivity.
Qed.

(** ** The handler against the specification's criteria *)

Lemma compare_at_least (a b : Z) :
  match a ?= b with Gt | Eq => true | Lt => false end = true <-> b <= a.
Proof. destruct (Z.compare_spec a b); split; intros; try done; lia. Qed.

Lemma compare_at_most (a b : Z) :
  match a ?= b with Lt | Eq => true | Gt => false end = true <-> a <= b.
Proof. destruct (Z.compare_spec a b); split; intros; try done; lia. Qed.

Lemma power_of_two_positive (k : Z) : 0 <= k -> (0 < inject_Z (2 ^ k))%Q.
Proof. intros Hk. rewrite <- (Zlt_Qlt 0). by apply Z.pow_pos_nonneg. Qed.

Lemma scale_back (v e : Z) :
  e < 0 -> (inject_Z v * 2 ^ e * inject_Z (2 ^ (- e)) == inject_Z v)%Q.
Proof.
  intros He. pose proof (power_of_two_positive (- e) ltac:(lia)) as Hpos.
  rewrite (Zpower_Qpower 2 (- e)) in * by lia.
  rewrite Qpower_opp in *. change (inject_Z 2) with 2%Q in *.
  rewrite <- Qmult_assoc, Qmult_inv_r; [apply Qmult_1_r|].
  intros Hzero. rewrite Hzero in Hpos. discriminate Hpos.
Qed.

Lemma scaled_at_most_up (v n e : Z) :
  0 <= e -> v * 2 ^ e <= n <-> (inject_Z v * 2 ^ e <= inject_Z n)%Q.
Proof.
  intros He. rewrite Zle_Qle, inject_Z_mult, (Zpower_Qpower 2 e He). reflexivity.
Qed.

Lemma scaled_at_least_up (v n e : Z) :
  0 <= e -> n <= v * 2 ^ e <-> (inject_Z n <= inject_Z v * 2 ^ e)%Q.
Proof.
  intros He. rewrite Zle_Qle, inject_Z_mult, (Zpower_Qpower 2 e He). reflexivity.
Qed.

Lemma scaled_at_most_down (v n e : Z) :
  e < 0 -> v <= n * 2 ^ (- e) <-> (inject_Z v * 2 ^ e <= inject_Z n)%Q.
Proof.
  intros He. pose proof (power_of_two_positive (- e) ltac:(lia)) as Hpos.
  rewrite Zle_Qle, inject_Z_mult.
  rewrite <- (Qmult_le_r (inject_Z v * 2 ^ e) (inject_Z n) _ Hpos).
  rewrite (scale_back v e He). reflexivity.
Qed.

Lemma scaled_at_least_down (v n e : Z) :
  e < 0 -> n * 2 ^ (- e) <= v <-> (inject_Z n <= inject_Z v * 2 ^ e)%Q.
Proof.
  intros He. pose proof (power_of_two_positive (- e) ltac:(lia)) as Hpos.
  rewrite Zle_Qle, inject_Z_mult.
  rewrite <- (Qmult_le_r (inject_Z n) (inject_Z v * 2 ^ e) _ Hpos).
  rewrite (scale_back v e He). reflexivity.
Qed.

(** The handler's comparison of a count with a float bound is the inclusive
    comparison of the two numbers. *)
Lemma int_ge_float_at_least (n : Z) (f : float) :
  int_ge_float n f = true <-> count_at_least n f.
Proof.
  unfold int_ge_float, count_at_least, int_cmp_float, number_of.
  destruct (Prim2SF f) as [z|s| |s m e]; cbv zeta.
  - change 0%Q with (inject_Z 0). rewrite <- Zle_Qle. apply compare_at_least.
  - destruct s; split; done.
  - split; done.
  - destruct (Z.leb_spec 0 e) as [He|He].
    + rewrite <- scaled_at_most_up by exact He. apply compare_at_least.
    + rewrite <- scaled_at_most_down by exact He. apply compare_at_least.
Qed.

Lemma int_le_float_at_most (n : Z) (f : float) :
  int_le_float n f = true <-> count_at_most n f.
Proof.
  unfold int_le_float, count_at_most, int_cmp_float, number_of.
  destruct (Prim2SF f) as [z|s| |s m e]; cbv zeta.
  - change 0%Q with (inject_Z 0). rewrite <- Zle_Qle. apply compare_at_most.
  - destruct s; split; done.
  - split; done.
  - destruct (Z.leb_spec 0 e) as [He|He].
    + rewrite <- scaled_at_least_up by exact He. apply compare_at_most.
    + rewrite <- scaled_at_least_down by exact He. apply compare_at_most.
Qed.

Lemma supplied_iff {A} (arg : option A) (test : A -> bool) (asked : A -> Prop) :
  (forall v, test v = true <-> asked v) ->
  supplied arg test = true <-> forall v, arg = Some v -> asked v.
Proof.
  intros Htest. rewrite supplied_true.
  split; intros Hall v Hv; apply Htest; by apply Hall.
Qed.

Lemma supplied_text_iff (arg : option string) (test : string -> bool)
    (asked : string -> Prop) :
  test EmptyString = true ->
  (forall v, v ≠ EmptyString -> test v = true <-> asked v) ->
  supplied arg test = true <-> forall v, supplied_text arg = Some v -> asked v.
Proof.
  intros Hempty Htest. destruct arg as [[|c s]|]; simpl.
  - split; [by intros _ v ? | by intros _].
  - rewrite Htest by done. split; [by intros ? v [= <-] | by intros Hv; apply Hv].
  - split; [by intros _ v ? | by intros _].
Qed.

Lemma passes_meets `{StrLower} q l : passes q l = true <-> meets (effective q) l.
Proof.
  pose proof (supplied_iff (Query.min_rent q)
    (fun v => float_ge (ListingRead.monthly_rent l) v)
    (fun v => PrimFloat.leb v (ListingRead.monthly_rent l) = true)
    (fun v => iff_refl _)) as H1.
  pose proof (supplied_iff (Query.max_rent q)
    (fun v => float_le (ListingRead.monthly_rent l) v)
    (fun v => PrimFloat.leb (ListingRead.monthly_rent l) v = true)
    (fun v => iff_refl _)) as H2.
  pose proof (supplied_iff (Query.min_bedrooms q)
    (fun v => ListingRead.num_bedrooms l >=? v)
    (fun v => v <= ListingRead.num_bedrooms l)
    (fun v => Z.geb_le _ _)) as H3.
  pose proof (supplied_iff (Query.max_bedrooms q)
    (fun v => ListingRead.num_bedrooms l <=? v)
    (fun v => ListingRead.num_bedrooms l <= v)
    (fun v => Z.leb_le _ _)) as H4.
  pose proof (supplied_iff (Query.min_bathrooms q)
    (fun v => int_ge_float (ListingRead.num_bathrooms l) v)
    (fun v => count_at_least (ListingRead.num_bathrooms l) v)
    (fun v => int_ge_float_at_least _ v)) as H5.
  pose proof (supplied_iff (Query.max_bathrooms q)
    (fun v => int_le_float (ListingRead.num_bathrooms l) v)
    (fun v => count_at_most (ListingRead.num_bathrooms l) v)
    (fun v => int_le_float_at_most _ v)) as H6.
  assert (H7 : supplied (Query.min_sqft q)
                 (fun v => or_int (ListingRead.square_feet l) 0 >=? v) = true
               <-> forall v, Query.min_sqft q = Some v ->
                     v <= default 0 (ListingRead.square_feet l)).
  { apply supplied_iff. intros v. by rewrite or_int_default, Z.geb_le. }
  assert (H8 : supplied (Query.max_sqft q)
                 (fun v => or_int (ListingRead.square_feet l) 0 <=? v) = true
               <-> forall v, Query.max_sqft q = Some v ->
                     default 0 (ListingRead.square_feet l) <= v).
  { apply supplied_iff. intros v. by rewrite or_int_default, Z.leb_le. }
  pose proof (supplied_iff (Query.is_available q)
    (fun v => Bool.eqb (ListingRead.is_available l) v)
    (fun v => ListingRead.is_available l = v)
    (fun v => Bool.eqb_true_iff _ v)) as H9.
  pose proof (supplied_iff (Query.amenities q)
    (fun v => amenities_test v l)
    (fun v => forall a, a ∈ v -> a ∈ ListingRead.amenities l)
    (fun v => amenities_test_subset v l)) as H10.
  pose proof (supplied_text_iff (Query.city q)
    (fun v => city_test v l)
    (fun v => lower (AddressRead.city (ListingRead.address l)) = lower v)
    eq_refl (fun v Hv => city_test_nonempty v l Hv)) as H11.
  pose proof (supplied_text_iff (Query.state q)
    (fun v => state_test v l)
    (fun v => exists l_state,
                AddressRead.state (ListingRead.address l) = Some l_state
                /\ lower l_state = lower v)
    eq_refl (fun v Hv => state_test_nonempty v l Hv)) as H12.
  unfold passes, meets, effective.
  cbn [Query.with_city Query.with_state Query.min_rent Query.max_rent
       Query.min_bedrooms Query.max_bedrooms Query.min_bathrooms
       Query.max_bathrooms Query.min_sqft Query.max_sqft Query.amenities
       Query.city Query.state Query.is_available].
  rewrite !andb_true_iff. tauto.
Qed.

Lemma effective_same (q : Query.t) :
  Query.city q ≠ Some EmptyString ->
  Query.state q ≠ Some EmptyString ->
  effective q = q.
Proof.
  destruct q as [? ? ? ? ? ? ? ? ? city state ?]. unfold effective. simpl.
  intros Hcity Hstate.
  destruct city as [[|? ?]|], state as [[|? ?]|]; done.
Qed.

(** C1, as the code has it.  For every dictionary and every combination of
    criteria, [list_listings] returns exactly the stored listings that meet
    all the criteria of the specification (bounds inclusive, amenities as a
    subset, city and state equal after lower-casing, availability equal),
    where a criterion that is absent, and a city or state criterion that is
    the empty text, asks nothing: a listing is returned if and only if it is
    stored and [meets] the query so taken, and the result is a subsequence
    of the stored sequence.  A query whose city and state are not the empty
    text is taken as it is.  The rent bounds are inclusive (a rent equal to
    both bounds passes), and on a dictionary holding rents 1000, 1500 and
    2000 the query min_rent=1200, max_rent=1800 returns exactly the listing
    at 1500. *)
Theorem list_listings_conjunction :
  (forall (SL : StrLower) q env w,
     exists results,
       list_listings q env w = (Return results, w)
       /\ get_listings q env w = (Success 200 results, w)
       /\ results `sublist_of` stored w
       /\ forall l, l ∈ results <-> l ∈ stored w /\ meets (effective q) l)
  /\ (forall q,
        Query.city q ≠ Some EmptyString ->
        Query.state q ≠ Some EmptyString ->
        effective q = q)
  /\ (forall (SL : StrLower) l, meets Query.none l)
  /\ (forall (SL : StrLower) l,
        PrimFloat.is_nan (ListingRead.monthly_rent l) = false ->
        meets
          (rent_between (ListingRead.monthly_rent l) (ListingRead.monthly_rent l)) l)
  /\ (forall (SL : StrLower) env w k1 k2 k3 l1 l2 l3,
        k1 ≠ k2 -> k1 ≠ k3 -> k2 ≠ k3 ->
        listings_db w = <[k1 := l1]> (<[k2 := l2]> (<[k3 := l3]> ∅)) ->
        ListingRead.monthly_rent l1 = 1000%float ->
        ListingRead.monthly_rent l2 = 1500%float ->
        ListingRead.monthly_rent l3 = 2000%float ->
        list_listings (rent_between 1200 1800) env w = (Return [l2], w)).
Proof.
  split; [|split; [|split; [|split]]].
  - intros SL q env w. exists (List.filter (passes q) (stored w)).
    split; [apply list_listings_run|].
    split; [unfold get_listings, route; rewrite list_listings_run; reflexivity|].
    split.
    + induction (stored w) as [|r rs IH]; simpl; [constructor|].
      destruct (passes q r); by constructor.
    + intros l. rewrite elem_of_comprehension, passes_meets. reflexivity.
  - apply effective_same.
  - intros SL l. apply (passes_meets Query.none l). reflexivity.
  - intros SL l Hnum.
    apply (passes_meets
             (rent_between (ListingRead.monthly_rent l) (ListingRead.monthly_rent l))).
    unfold passes, rent_between, float_ge, float_le. simpl.
    rewrite float_bound_inclusive by exact Hnum. reflexivity.
  - intros SL. apply rent_window.
Qed.

Lemma list_listings_conjunction_witness :
  @list_listings ascii_str_lower (rent_between 1200 1800) sample_env sample_world =
  (Return [listing_of sample_env 2 2 (sample_payload 1500%float)], sample_world).
Proof.
  refine (proj2 (proj2 (proj2 (proj2 list_listings_conjunction))) ascii_str_lower
            sample_env sample_world 1%N 3%N 5%N
            (listing_of sample_env 0 0 (sample_payload 1000%float))
            (listing_of sample_env 2 2 (sample_payload 1500%float))
            (listing_of sample_env 4 4 (sample_payload 2000%float))
            _ _ _ _ _ _ _); try done; vm_compute; reflexivity.
Defined.

(** C1 as stated fails on a city criterion that is the empty text: it is
    supplied, the listing in "Boston" is returned, and that listing does not
    meet the criterion, since "Boston" and the empty text differ after
    lower-casing. *)
Lemma empty_city_returned_counterexample :
  @list_listings ascii_str_lower (city_only EmptyString) sample_env bare_world =
    (Return [listing_of sample_env 0 0 bare_payload], bare_world)
  /\ Query.city (city_only EmptyString) = Some EmptyString
  /\ ~ @meets ascii_str_lower (city_only EmptyString)
         (listing_of sample_env 0 0 bare_payload).
Proof.
  split; [vm_compute; reflexivity|]. split; [reflexivity|].
  intros (_ & _ & _ & _ & _ & _ & _ & _ & _ & _ & Hcity & _).
  specialize (Hcity EmptyString eq_refl). vm_compute in Hcity. discriminate Hcity.
Qed.

(** C6.  With an amenities criterion supplied, a listing is returned if and
    only if it is returned without that criterion and every requested tag
    occurs in its amenities; tags are compared as exact text, so case
    matters, and the listing may have more tags than requested.  A listing
    with amenities ["Gym"; "Pool"] is returned for ["Gym"], and is not
    returned for ["Gym"; "Sauna"] nor for ["gym"]. *)
Theorem amenities_subset_test :
  (forall (SL : StrLower) q req env w,
     exists results others,
       list_listings (Query.with_amenities (Some req) q) env w = (Return results, w)
       /\ list_listings (Query.with_amenities None q) env w = (Return others, w)
       /\ forall l, l ∈ results <->
            l ∈ others /\ forall a, a ∈ req -> a ∈ ListingRead.amenities l)
  /\ (forall (SL : StrLower) env w l,
        l ∈ stored w ->
        ListingRead.amenities l = ["Gym"; "Pool"] ->
        (exists results,
           list_listings (Query.with_amenities (Some ["Gym"]) Query.none) env w =
             (Return results, w)
           /\ l ∈ results)
        /\ (exists results,
              list_listings (Query.with_amenities (Some ["Gym"; "Sauna"]) Query.none)
                env w = (Return results, w)
              /\ l ∉ results)
        /\ (exists results,
              list_listings (Query.with_amenities (Some ["gym"]) Query.none)
                env w = (Return results, w)
              /\ l ∉ results)).
Proof.
  split.
  - intros SL q req env w.
    destruct (narrowed _ _ _ env w
                (passes_with_amenities (Some req) q)) as (rs & os & Hr & Ho & Hiff).
    exists rs, os. split; [exact Hr|]. split; [exact Ho|].
    intros l. rewrite Hiff. simpl. by rewrite amenities_test_subset.
  - intros SL env w l Hl Ham.
    repeat split; eexists; (split; [apply list_listings_run|]);
      rewrite elem_of_comprehension; unfold passes, amenities_test; simpl;
      rewrite Ham; vm_compute; intuition congruence.
Qed.

Lemma amenities_subset_test_witness :
  (exists results,
     @list_listings ascii_str_lower (Query.with_amenities (Some ["Gym"]) Query.none)
       sample_env sample_world = (Return results, sample_world)
     /\ listing_of sample_env 0 0 (sample_payload 1000%float) ∈ results)
  /\ (exists results,
        @list_listings ascii_str_lower
          (Query.with_amenities (Some ["Gym"; "Sauna"]) Query.none)
          sample_env sample_world = (Return results, sample_world)
        /\ listing_of sample_env 0 0 (sample_payload 1000%float) ∉ results).
Proof.
  destruct (proj2 amenities_subset_test ascii_str_lower sample_env sample_world
              (listing_of sample_env 0 0 (sample_payload 1000%float)))
    as (Hgym & Hsauna & _).
  - apply elem_of_stored. exists 1%N. vm_compute. reflexivity.
  - reflexivity.
  - split; [exact Hgym | exact Hsauna].
Defined.

(** C7, as the code has it.  With a non-empty city criterion, a listing is
    returned if and only if it is returned without that criterion and the
    city of its address equals the criterion after lower-casing both.  With
    a non-empty state criterion, a listing is returned if and only if it is
    returned without that criterion, its address has a state, and that state
    equals the criterion after lower-casing both; a listing whose address
    has no state is never returned.  A listing in "New York" is returned
    for city "new york". *)
Theorem city_state_case_insensitive :
  (forall (SL : StrLower) q c env w,
     c ≠ EmptyString ->
     exists results others,
       list_listings (Query.with_city (Some c) q) env w = (Return results, w)
       /\ list_listings (Query.with_city None q) env w = (Return others, w)
       /\ forall l, l ∈ results <->
            l ∈ others
            /\ lower (AddressRead.city (ListingRead.address l)) = lower c)
  /\ (forall (SL : StrLower) q s env w,
        s ≠ EmptyString ->
        exists results others,
          list_listings (Query.with_state (Some s) q) env w = (Return results, w)
          /\ list_listings (Query.with_state None q) env w = (Return others, w)
          /\ (forall l, l ∈ results <->
                l ∈ others
                /\ exists l_state,
                     AddressRead.state (ListingRead.address l) = Some l_state
                     /\ lower l_state = lower s)
          /\ (forall l, AddressRead.state (ListingRead.address l) = None ->
                        l ∉ results))
  /\ (forall (SL : StrLower) env w l,
        l ∈ stored w ->
        AddressRead.city (ListingRead.address l) = "New York" ->
        exists results,
          list_listings (Query.with_city (Some "new york") Query.none) env w =
            (Return results, w)
          /\ l ∈ results).
Proof.
  split; [|split].
  - intros SL q c env w Hc.
    destruct (narrowed _ _ _ env w (passes_with_city (Some c) q))
      as (rs & os & Hr & Ho & Hiff).
    exists rs, os. split; [exact Hr|]. split; [exact Ho|].
    intros l. rewrite Hiff. simpl. by rewrite city_test_nonempty.
  - intros SL q s env w Hs.
    destruct (narrowed _ _ _ env w (passes_with_state (Some s) q))
      as (rs & os & Hr & Ho & Hiff).
    assert (Hin : forall l, l ∈ rs <->
              l ∈ os /\ exists l_state,
                AddressRead.state (ListingRead.address l) = Some l_state
                /\ lower l_state = lower s).
    { intros l. rewrite Hiff. simpl. by rewrite state_test_nonempty. }
    exists rs, os. split; [exact Hr|]. split; [exact Ho|]. split; [exact Hin|].
    intros l Hnone [_ [l_state [Hsome _]]]%Hin. congruence.
  - intros SL env w l Hl Hcity.
    eexists. split; [apply list_listings_run|].
    apply elem_of_comprehension. split; [exact Hl|].
    unfold passes, city_test. simpl. rewrite Hcity.
    rewrite !lower_on_ascii by reflexivity. reflexivity.
Qed.

Lemma city_state_case_insensitive_witness :
  exists results,
    @list_listings ascii_str_lower (Query.with_city (Some "new york") Query.none)
      sample_env sample_world = (Return results, sample_world)
    /\ listing_of sample_env 2 2 (sample_payload 1500%float) ∈ results.
Proof.
  apply (proj2 (proj2 city_state_case_insensitive) ascii_str_lower
           sample_env sample_world).
  - apply elem_of_stored. exists 3%N. vm_compute. reflexivity.
  - reflexivity.
Defined.

(** C7 as stated fails on an empty criterion.  The empty text is supplied as
    city, and the listing in "Boston" is returned although "Boston" and the
    empty text differ after lower-casing; the empty text is supplied as
    state, and the same listing is returned although its address has no
    state. *)
Lemma empty_city_state_counterexample :
  @list_listings ascii_str_lower (Query.with_city (Some EmptyString) Query.none)
    sample_env bare_world =
    (Return [listing_of sample_env 0 0 bare_payload], bare_world)
  /\ AddressRead.city (ListingRead.address (listing_of sample_env 0 0 bare_payload)) =
       "Boston"
  /\ str_eq (@lower ascii_str_lower "Boston") (@lower ascii_str_lower EmptyString) = false
  /\ @list_listings ascii_str_lower (Query.with_state (Some EmptyString) Query.none)
       sample_env bare_world =
       (Return [listing_of sample_env 0 0 bare_payload], bare_world)
  /\ AddressRead.state (ListingRead.address (listing_of sample_env 0 0 bare_payload)) =
       None.
Proof. repeat split; vm_compute; reflexivity. Qed.

(** C8, as the code has it.  The square-footage bounds are inclusive and
    compare the listing's square footage, or 0 when the listing has none:
    with min_sqft supplied a listing is returned if and only if it is
    returned without that criterion and the bound is at most that number,
    with max_sqft if and only if that number is at most the bound.  So a
    listing without square footage passes min_sqft exactly when the bound
    is at most 0 and passes max_sqft exactly when the bound is at least
    0. *)
Theorem sqft_bounds :
  (forall (SL : StrLower) q v env w,
     exists results others,
       list_listings (Query.with_min_sqft (Some v) q) env w = (Return results, w)
       /\ list_listings (Query.with_min_sqft None q) env w = (Return others, w)
       /\ (forall l, l ∈ results <->
             l ∈ others /\ v <= default 0 (ListingRead.square_feet l))
       /\ (forall l, ListingRead.square_feet l = None ->
             (l ∈ results <-> l ∈ others /\ v <= 0)))
  /\ (forall (SL : StrLower) q v env w,
        exists results others,
          list_listings (Query.with_max_sqft (Some v) q) env w = (Return results, w)
          /\ list_listings (Query.with_max_sqft None q) env w = (Return others, w)
          /\ (forall l, l ∈ results <->
                l ∈ others /\ default 0 (ListingRead.square_feet l) <= v)
          /\ (forall l, ListingRead.square_feet l = None ->
                (l ∈ results <-> l ∈ others /\ 0 <= v))).
Proof.
  split; intros SL q v env w.
  - destruct (narrowed _ _ _ env w (passes_with_min_sqft (Some v) q))
      as (rs & os & Hr & Ho & Hiff).
    assert (Hin : forall l, l ∈ rs <->
              l ∈ os /\ v <= default 0 (ListingRead.square_feet l)).
    { intros l. rewrite Hiff. simpl. by rewrite or_int_default, Z.geb_le. }
    exists rs, os. split; [exact Hr|]. split; [exact Ho|]. split; [exact Hin|].
    intros l Hnone. rewrite Hin, Hnone. reflexivity.
  - destruct (narrowed _ _ _ env w (passes_with_max_sqft (Some v) q))
      as (rs & os & Hr & Ho & Hiff).
    assert (Hin : forall l, l ∈ rs <->
              l ∈ os /\ default 0 (ListingRead.square_feet l) <= v).
    { intros l. rewrite Hiff. simpl. by rewrite or_int_default, Z.leb_le. }
    exists rs, os. split; [exact Hr|]. split; [exact Ho|]. split; [exact Hin|].
    intros l Hnone. rewrite Hin, Hnone. reflexivity.
Qed.

(** C8 as stated fails on a negative upper bound: the stored listing has no
    square footage, it is returned without criteria, and max_sqft=-1 returns
    nothing. *)
Lemma negative_max_sqft_counterexample :
  ListingRead.square_feet (listing_of sample_env 0 0 bare_payload) = None
  /\ @list_listings ascii_str_lower Query.none sample_env bare_world =
       (Return [listing_of sample_env 0 0 bare_payload], bare_world)
  /\ @list_listings ascii_str_lower (Query.with_max_sqft (Some (-1)) Query.none)
       sample_env bare_world = (Return [], bare_world).
Proof. repeat split; vm_compute; reflexivity. Qed.

(** C10.  An amenities criterion that is the empty list, a city criterion
    that is the empty text and a state criterion that is the empty text
    give the call the result it has without the criterion.  An availability
    criterion of false does constrain: a listing is returned if and only if
    it is returned without the criterion and is not available, and on a
    dictionary holding one available listing the call returns nothing. *)
Theorem empty_criteria_ignored :
  (forall (SL : StrLower) q env w,
     list_listings (Query.with_amenities (Some []) q) env w =
       list_listings (Query.with_amenities None q) env w
     /\ list_listings (Query.with_city (Some EmptyString) q) env w =
       list_listings (Query.with_city None q) env w
     /\ list_listings (Query.with_state (Some EmptyString) q) env w =
       list_listings (Query.with_state None q) env w
     /\ exists results others,
          list_listings (Query.with_is_available (Some false) q) env w =
            (Return results, w)
          /\ list_listings (Query.with_is_available None q) env w =
            (Return others, w)
          /\ forall l, l ∈ results <->
               l ∈ others /\ ListingRead.is_available l = false)
  /\ (@list_listings ascii_str_lower Query.none sample_env bare_world =
        (Return [listing_of sample_env 0 0 bare_payload], bare_world)
      /\ @list_listings ascii_str_lower
           (Query.with_is_available (Some false) Query.none) sample_env bare_world =
           (Return [], bare_world)).
Proof.
  split.
  - intros SL q env w. split; [|split; [|split]].
    + rewrite !list_listings_run. reflexivity.
    + rewrite !list_listings_run. reflexivity.
    + rewrite !list_listings_run. reflexivity.
    + destruct (narrowed _ _ _ env w (passes_with_is_available (Some false) q))
        as (rs & os & Hr & Ho & Hiff).
      exists rs, os. split; [exact Hr|]. split; [exact Ho|].
      intros l. rewrite Hiff. simpl. by rewrite Bool.eqb_true_iff.
  - split; vm_compute; reflexivity.
Qed.

(** * Further properties of the handlers *)

(** ** Every request, case by case *)

Lemma answer_serve `{StrLower} env r w : snd (answer env r w) = serve env r w.
Proof. destruct r; reflexivity. Qed.

Lemma answer_by_cases `{StrLower} env r w : answer env r w = answer_cases env r w.
Proof.
  destruct r as [payload|q|listing_id payload|listing_id];
    unfold answer, answer_cases.
  - unfold post_listings, route.
    destruct (listings_db w !! uuid4_at env (uuid_calls w)) as [old|] eqn:Hkey.
    + rewrite create_listing_conflict by eauto. reflexivity.
    + rewrite create_listing_fresh by exact Hkey. reflexivity.
  - unfold get_listings, route. rewrite list_listings_run. reflexivity.
  - unfold put_listing, route.
    destruct (listings_db w !! listing_id) as [existing|] eqn:Hkey.
    + rewrite (update_listing_found _ _ _ _ _ Hkey). reflexivity.
    + rewrite update_listing_missing by exact Hkey. reflexivity.
  - unfold delete_listing_route, route.
    destruct (listings_db w !! listing_id) as [existing|] eqn:Hkey.
    + rewrite (delete_listing_found _ _ _ _ Hkey). reflexivity.
    + rewrite delete_listing_missing by exact Hkey. reflexivity.
Qed.

(** X1.  Called with validated arguments and with no other request running
    in between, a handler body ends in one of two ways only: it returns, or
    it raises the [HTTPException] it names.  [create_listing] returns the
    record or raises status 400, [update_listing] returns the record or
    raises status 404, [delete_listing] returns nothing or raises status
    404, [list_listings] always returns; the subscript
    [listings_db[listing.id]] and the [del] never raise [KeyError]. *)
Theorem handlers_raise_only_http_errors env w :
  (forall payload,
     (exists listing, fst (create_listing payload env w) = Return listing)
     \/ fst (create_listing payload env w) =
          Raise (HTTPException 400 "Listing with this ID already exists"))
  /\ (forall listing_id payload,
        (exists listing,
           fst (update_listing listing_id payload env w) = Return listing)
        \/ fst (update_listing listing_id payload env w) =
             Raise (HTTPException 404 "Listing not found"))
  /\ (forall listing_id,
        fst (delete_listing listing_id env w) = Return tt
        \/ fst (delete_listing listing_id env w) =
             Raise (HTTPException 404 "Course no found."))
  /\ (forall (SL : StrLower) q,
        exists results, fst (list_listings q env w) = Return results)
  /\ (forall payload listing_id k,
        fst (create_listing payload env w) ≠ Raise (KeyError k)
        /\ fst (delete_listing listing_id env w) ≠ Raise (KeyError k)).
Proof.
  assert (Hcreate : forall payload,
            (exists listing, fst (create_listing payload env w) = Return listing)
            \/ fst (create_listing payload env w) =
                 Raise (HTTPException 400 "Listing with this ID already exists")).
  { intros payload.
    destruct (listings_db w !! uuid4_at env (uuid_calls w)) as [old|] eqn:Hkey.
    - right. by rewrite create_listing_conflict by eauto.
    - left. eexists. by rewrite create_listing_fresh by exact Hkey. }
  assert (Hdelete : forall listing_id,
            fst (delete_listing listing_id env w) = Return tt
            \/ fst (delete_listing listing_id env w) =
                 Raise (HTTPException 404 "Course no found.")).
  { intros listing_id.
    destruct (listings_db w !! listing_id) as [existing|] eqn:Hkey.
    - left. by rewrite (delete_listing_found _ _ _ _ Hkey).
    - right. by rewrite delete_listing_missing by exact Hkey. }
  split; [exact Hcreate|]. split; [|split; [exact Hdelete|split]].
  - intros listing_id payload.
    destruct (listings_db w !! listing_id) as [existing|] eqn:Hkey.
    + left. eexists. by rewrite (update_listing_found _ _ _ _ _ Hkey).
    + right. by rewrite update_listing_missing by exact Hkey.
  - intros SL q. eexists. by rewrite list_listings_run.
  - intros payload listing_id k. split.
    + destruct (Hcreate payload) as [[listing ->]| ->]; done.
    + destruct (Hdelete listing_id) as [-> | ->]; done.
Qed.

(** X2.  A request that is refused changes nothing in the dictionary: when
    the answer is an error status (400 or above), [listings_db] is what it
    was before the request. *)
Theorem refused_request_keeps_dictionary `{StrLower} env r w :
  400 <= fst (answer env r w) ->
  listings_db (snd (answer env r w)) = listings_db w.
Proof.
  rewrite answer_by_cases.
  destruct r as [payload|q|listing_id payload|listing_id]; simpl.
  - destruct (listings_db w !! _); simpl; [done | lia].
  - lia.
  - destruct (listings_db w !! _); simpl; [lia | done].
  - destruct (listings_db w !! _); simpl; [lia | done].
Qed.

Lemma refused_request_keeps_dictionary_witness :
  listings_db (snd (@answer ascii_str_lower stuck_env (POST bare_payload) stuck_world))
  = listings_db stuck_world
  /\ listings_db (snd (@answer ascii_str_lower sample_env (DELETE 9%N) sample_world))
     = listings_db sample_world.
Proof.
  split.
  - apply (@refused_request_keeps_dictionary ascii_str_lower stuck_env
             (POST bare_payload) stuck_world).
    vm_compute. discriminate.
  - apply (@refused_request_keeps_dictionary ascii_str_lower sample_env
             (DELETE 9%N) sample_world).
    vm_compute. discriminate.
Defined.

(** ** What a listing call returns *)

Lemma comprehension_sublist (p : ListingRead.t -> bool) rs :
  List.filter p rs `sublist_of` rs.
Proof.
  induction rs as [|r rs IH]; simpl; [constructor|].
  destruct (p r); by constructor.
Qed.

(** X3.  Filtering never invents, repeats or reorders listings: whatever the
    criteria, the result is a subsequence of what the call without criteria
    returns, which is the stored sequence; in particular it is never
    longer. *)
Theorem list_listings_subsequence `{StrLower} q env w :
  exists results everything,
    list_listings q env w = (Return results, w)
    /\ list_listings Query.none env w = (Return everything, w)
    /\ everything = stored w
    /\ results `sublist_of` everything
    /\ (length results <= length everything)%nat.
Proof.
  exists (List.filter (passes q) (stored w)), (stored w).
  split; [apply list_listings_run|].
  split; [rewrite list_listings_run; simpl; by rewrite comprehension_all|].
  split; [reflexivity|].
  split; [apply comprehension_sublist|].
  apply sublist_length, comprehension_sublist.
Qed.

(** ** Identifiers *)

Lemma serve_by_cases `{StrLower} env r w : serve env r w = snd (answer_cases env r w).
Proof. by rewrite <- answer_serve, answer_by_cases. Qed.

Lemma keys_are_ids_serve `{StrLower} env r w :
  keys_are_ids w -> keys_are_ids (serve env r w).
Proof.
  intros Hinv. rewrite serve_by_cases.
  destruct r as [payload|q|listing_id payload|listing_id]; simpl.
  - destruct (listings_db w !! _) as [old|] eqn:Hkey; simpl; [exact Hinv|].
    intros k l Hk. simpl in Hk.
    apply lookup_insert_Some in Hk as [[<- <-]|[_ Hk]]; [reflexivity | by apply Hinv].
  - exact Hinv.
  - destruct (listings_db w !! listing_id) as [existing|] eqn:Hkey; simpl; [|exact Hinv].
    intros k l Hk. simpl in Hk.
    apply lookup_insert_Some in Hk as [[<- <-]|[_ Hk]]; [reflexivity | by apply Hinv].
  - destruct (listings_db w !! listing_id) as [existing|] eqn:Hkey; simpl; [|exact Hinv].
    intros k l Hk. simpl in Hk.
    apply lookup_delete_Some in Hk as [_ Hk]. by apply Hinv.
Qed.

Lemma reachable_keys_are_ids `{StrLower} env w :
  reachable env w -> keys_are_ids w.
Proof.
  induction 1 as [|w r _ IH].
  - intros k l Hk. simpl in Hk. by rewrite lookup_empty in Hk.
  - by apply keys_are_ids_serve.
Qed.

Lemma stored_ids w :
  keys_are_ids w -> ListingRead.id <$> stored w = (map_to_list (listings_db w)).*1.
Proof.
  intros Hinv. unfold stored. rewrite <- list_fmap_compose.
  apply list_fmap_ext. intros i [k l] Hkl. simpl.
  apply Hinv. apply elem_of_map_to_list. by eapply list_elem_of_lookup_2.
Qed.

(** X4.  In a running process every record is stored under its own
    identifier, so a listing call never returns two records with the same
    identifier, whatever the criteria. *)
Theorem listed_identifiers_distinct `{StrLower} env w q :
  reachable env w ->
  keys_are_ids w
  /\ exists results,
       list_listings q env w = (Return results, w)
       /\ NoDup (ListingRead.id <$> results)
       /\ NoDup results.
Proof.
  intros Hreach. pose proof (reachable_keys_are_ids env w Hreach) as Hinv.
  split; [exact Hinv|].
  eexists. split; [apply list_listings_run|].
  assert (Hids : NoDup (ListingRead.id <$> List.filter (passes q) (stored w))).
  { apply (sublist_NoDup _ (ListingRead.id <$> stored w)).
    - rewrite stored_ids by exact Hinv. apply NoDup_fst_map_to_list.
    - apply fmap_sublist, comprehension_sublist. }
  split; [exact Hids|]. by eapply NoDup_fmap_1.
Qed.

Lemma listed_identifiers_distinct_witness :
  exists results,
    @list_listings ascii_str_lower Query.none sample_env sample_world =
      (Return results, sample_world)
    /\ NoDup (ListingRead.id <$> results)
    /\ NoDup results.
Proof.
  exact (proj2 (@listed_identifiers_distinct ascii_str_lower sample_env sample_world
                  Query.none sample_world_reachable)).
Defined.

Lemma ids_generated_serve `{StrLower} env r w :
  ids_generated env w -> ids_generated env (serve env r w).
Proof.
  intros Hinv. rewrite serve_by_cases.
  assert (Hmore : forall calls reads db,
            (forall k l, db !! k = Some l -> listings_db w !! k = Some l) ->
            ids_generated env (with_db (advance calls reads w) db)).
  { intros calls reads db Hsub k l Hk.
    destruct (Hinv k l (Hsub k l Hk)) as (i & j & Hij & Hj & Hki & Hlj).
    exists i, j. simpl. repeat split; [lia | lia | exact Hki | exact Hlj]. }
  destruct r as [payload|q|listing_id payload|listing_id]; simpl.
  - destruct (listings_db w !! _) as [old|] eqn:Hkey; simpl.
    + apply (Hmore 2%nat 2%nat (listings_db w)). done.
    + intros k l Hk. simpl in Hk.
      apply lookup_insert_Some in Hk as [[<- <-]|[_ Hk]].
      * exists (uuid_calls w), (S (uuid_calls w)). simpl.
        repeat split; lia.
      * apply (Hmore 2%nat 2%nat (listings_db w)); done.
  - exact Hinv.
  - destruct (listings_db w !! listing_id) as [existing|] eqn:Hkey; simpl;
      [|exact Hinv].
    intros k l Hk. simpl in Hk.
    apply lookup_insert_Some in Hk as [[<- <-]|[_ Hk]].
    + destruct (Hinv _ _ Hkey) as (i & j & Hij & Hj & Hki & _).
      exists i, (uuid_calls w). simpl. repeat split; [lia | lia | exact Hki].
    + apply (Hmore 1%nat 2%nat (listings_db w)); done.
  - destruct (listings_db w !! listing_id) as [existing|] eqn:Hkey; simpl;
      [|exact Hinv].
    apply (Hmore 0%nat 0%nat (delete listing_id (listings_db w))).
    intros k l Hk. by apply lookup_delete_Some in Hk as [_ Hk].
Qed.

Lemma reachable_ids_generated `{StrLower} env w :
  reachable env w -> ids_generated env w.
Proof.
  induction 1 as [|w r _ IH].
  - intros k l Hk. simpl in Hk. by rewrite lookup_empty in Hk.
  - by apply ids_generated_serve.
Qed.

(** X5.  When the generator never hands out the same identifier twice, a
    running process never refuses a POST: the generated identifier is not yet
    a key, [create_listing] returns the built record, the route answers 201,
    and the keys of the dictionary are the old ones and the new
    identifier. *)
Theorem create_always_succeeds `{StrLower} env w payload :
  never_repeats env ->
  reachable env w ->
  let new_id := uuid4_at env (uuid_calls w) in
  let listing := listing_of env (uuid_calls w) (clock_reads w) payload in
  listings_db w !! new_id = None
  /\ create_listing payload env w =
       (Return listing,
        with_db (advance 2 2 w) (<[new_id := listing]> (listings_db w)))
  /\ fst (answer env (POST payload) w) = 201
  /\ dom (listings_db (serve env (POST payload) w)) = {[new_id]} ∪ dom (listings_db w).
Proof.
  intros Hfresh Hreach new_id listing.
  assert (Hkey : listings_db w !! new_id = None).
  { destruct (listings_db w !! new_id) as [old|] eqn:Hkey; [|reflexivity].
    destruct (reachable_ids_generated env w Hreach _ _ Hkey)
      as (i & j & Hij & Hj & Hki & _).
    apply Hfresh in Hki. lia. }
  split; [exact Hkey|]. split; [by apply create_listing_fresh|].
  rewrite serve_by_cases, answer_by_cases. simpl. fold new_id. rewrite Hkey. simpl.
  split; [reflexivity|]. apply dom_insert_L.
Qed.

Lemma sample_generator_never_repeats : never_repeats sample_env.
Proof. intros i j Hij. simpl in Hij. lia. Qed.

Lemma create_always_succeeds_witness :
  create_listing bare_payload sample_env sample_world =
    (Return (listing_of sample_env 6 6 bare_payload),
     with_db (advance 2 2 sample_world)
       (<[7%N := listing_of sample_env 6 6 bare_payload]> (listings_db sample_world)))
  /\ fst (@answer ascii_str_lower sample_env (POST bare_payload) sample_world) = 201.
Proof.
  pose proof (@create_always_succeeds ascii_str_lower sample_env sample_world
                bare_payload sample_generator_never_repeats sample_world_reachable)
    as Hcreate.
  cbv zeta in Hcreate. destruct Hcreate as (_ & Hrun & Hstatus & _).
  split; [exact Hrun | exact Hstatus].
Defined.

Lemma ids_distinct_serve `{StrLower} env r w :
  never_repeats env ->
  ids_generated env w ->
  ids_distinct w -> ids_distinct (serve env r w).
Proof.
  intros Hfresh Hgen Hinv. rewrite serve_by_cases.
  assert (Hneq : forall i j : nat, i ≠ j -> uuid4_at env i ≠ uuid4_at env j).
  { intros i j Hij Heq. by apply Hfresh in Heq. }
  destruct r as [payload|q|listing_id payload|listing_id]; simpl.
  - destruct (listings_db w !! _) as [old|] eqn:Hkey; simpl; [exact Hinv|].
    intros k l k' l' Hk Hk'. simpl in Hk, Hk'.
    apply lookup_insert_Some in Hk as [[<- <-]|[Hne Hk]];
      apply lookup_insert_Some in Hk' as [[<- <-]|[Hne' Hk']]; simpl.
    + split; [apply Hneq; lia | done].
    + destruct (Hgen _ _ Hk') as (i & j & Hij & Hj & -> & ->).
      split; intros; apply Hneq; lia.
    + destruct (Hgen _ _ Hk) as (i & j & Hij & Hj & -> & ->).
      split; intros; apply Hneq; lia.
    + by apply (Hinv k l k' l').
  - exact Hinv.
  - destruct (listings_db w !! listing_id) as [existing|] eqn:Hkey; simpl;
      [|exact Hinv].
    destruct (Hgen _ _ Hkey) as (i0 & j0 & Hij0 & Hj0 & Hid0 & _).
    intros k l k' l' Hk Hk'. simpl in Hk, Hk'.
    apply lookup_insert_Some in Hk as [[<- <-]|[Hne Hk]];
      apply lookup_insert_Some in Hk' as [[<- <-]|[Hne' Hk']]; simpl.
    + split; [rewrite Hid0; apply Hneq; lia | done].
    + destruct (Hgen _ _ Hk') as (i & j & Hij & Hj & -> & ->).
      split; intros; apply Hneq; lia.
    + split; [by apply (Hinv k l listing_id existing)|].
      destruct (Hgen _ _ Hk) as (i & j & Hij & Hj & _ & ->).
      intros _. apply Hneq. lia.
    + by apply (Hinv k l k' l').
  - destruct (listings_db w !! listing_id) as [existing|] eqn:Hkey; simpl;
      [|exact Hinv].
    intros k l k' l' Hk Hk'. simpl in Hk, Hk'.
    apply lookup_delete_Some in Hk as [_ Hk].
    apply lookup_delete_Some in Hk' as [_ Hk'].
    by apply (Hinv k l k' l').
Qed.

Lemma reachable_ids_distinct `{StrLower} env w :
  never_repeats env -> reachable env w -> ids_distinct w.
Proof.
  intros Hfresh. induction 1 as [|w r Hreach IH].
  - intros k l k' l' Hk. simpl in Hk. by rewrite lookup_empty in Hk.
  - apply ids_distinct_serve; [exact Hfresh | by apply reachable_ids_generated | exact IH].
Qed.

(** X6.  When the generator never hands out the same identifier twice, all
    identifiers in the dictionary of a running process are different from
    each other: no address carries the identifier of a listing (its own
    listing included), two different stored listings have different
    identifiers and different address identifiers, and a stored listing is
    determined by its identifier. *)
Theorem identifiers_unique `{StrLower} env w :
  never_repeats env ->
  reachable env w ->
  forall l l',
    l ∈ stored w -> l' ∈ stored w ->
    AddressRead.id (ListingRead.address l) ≠ ListingRead.id l'
    /\ (ListingRead.id l = ListingRead.id l' -> l = l')
    /\ (l ≠ l' ->
        ListingRead.id l ≠ ListingRead.id l'
        /\ AddressRead.id (ListingRead.address l)
           ≠ AddressRead.id (ListingRead.address l')).
Proof.
  intros Hfresh Hreach l l' [k Hk]%elem_of_stored [k' Hk']%elem_of_stored.
  pose proof (reachable_keys_are_ids env w Hreach) as Hkeys.
  pose proof (reachable_ids_distinct env w Hfresh Hreach k l k' l' Hk Hk')
    as [Haddr Hother].
  rewrite (Hkeys _ _ Hk), (Hkeys _ _ Hk').
  assert (Hsame : k = k' -> l = l') by (intros ->; congruence).
  split; [exact Haddr|]. split; [exact Hsame|].
  intros Hne. assert (k ≠ k') by (intros Heq; by apply Hne, Hsame).
  split; [done | by apply Hother].
Qed.

Lemma identifiers_unique_witness :
  AddressRead.id (ListingRead.address (listing_of sample_env 0 0 (sample_payload 1000%float)))
  ≠ ListingRead.id (listing_of sample_env 2 2 (sample_payload 1500%float))
  /\ (ListingRead.id (listing_of sample_env 0 0 (sample_payload 1000%float)) =
      ListingRead.id (listing_of sample_env 2 2 (sample_payload 1500%float)) ->
      listing_of sample_env 0 0 (sample_payload 1000%float) =
      listing_of sample_env 2 2 (sample_payload 1500%float)).
Proof.
  destruct (@identifiers_unique ascii_str_lower sample_env sample_world
              sample_generator_never_repeats sample_world_reachable
              (listing_of sample_env 0 0 (sample_payload 1000%float))
              (listing_of sample_env 2 2 (sample_payload 1500%float)))
    as (Haddr & Hsame & _).
  - apply elem_of_stored. exists 1%N. vm_compute. reflexivity.
  - apply elem_of_stored. exists 3%N. vm_compute. reflexivity.
  - split; [exact Haddr | exact Hsame].
Defined.

(** ** Sequences of requests *)

Lemma stored_length w : length (stored w) = size (listings_db w).
Proof. unfold stored. by rewrite length_fmap, length_map_to_list. Qed.

(** X7.  The number of stored listings changes only with a successful create
    or delete: a request answered 201 adds exactly one listing, a request
    answered 204 removes exactly one, and every other request (a list, an
    update, any refused request) leaves the set of identifiers in the
    dictionary and the number of listings as they were. *)
Theorem listing_count `{StrLower} env r w :
  (fst (answer env r w) = 201 ->
     length (stored (serve env r w)) = S (length (stored w)))
  /\ (fst (answer env r w) = 204 ->
        S (length (stored (serve env r w))) = length (stored w))
  /\ (fst (answer env r w) ≠ 201 -> fst (answer env r w) ≠ 204 ->
        dom (listings_db (serve env r w)) = dom (listings_db w)
        /\ length (stored (serve env r w)) = length (stored w)).
Proof.
  rewrite !stored_length, serve_by_cases, answer_by_cases.
  destruct r as [payload|q|listing_id payload|listing_id]; simpl.
  - destruct (listings_db w !! _) as [old|] eqn:Hkey; simpl.
    + repeat split; done.
    + repeat split; try done. intros _. by apply map_size_insert_None.
  - repeat split; done.
  - destruct (listings_db w !! listing_id) as [existing|] eqn:Hkey; simpl.
    + repeat split; try done.
      * apply dom_insert_lookup_L. eauto.
      * apply map_size_insert_Some. eauto.
    + repeat split; done.
  - destruct (listings_db w !! listing_id) as [existing|] eqn:Hkey; simpl.
    + repeat split; try done. intros _.
      rewrite map_size_delete_Some by eauto.
      assert (size (listings_db w) ≠ 0%nat).
      { intros Hsize. apply map_size_empty_inv in Hsize.
        rewrite Hsize, lookup_empty in Hkey. discriminate Hkey. }
      lia.
    + repeat split; done.
Qed.

Lemma listing_count_witness :
  length (stored (@serve ascii_str_lower sample_env (POST bare_payload) sample_world))
  = S (length (stored sample_world))
  /\ S (length (stored (@serve ascii_str_lower sample_env (DELETE 3%N) sample_world)))
     = length (stored sample_world)
  /\ length (stored (@serve ascii_str_lower sample_env (PUT 3%N bare_payload) sample_world))
     = length (stored sample_world).
Proof.
  split; [|split].
  - apply (proj1 (@listing_count ascii_str_lower sample_env
                    (POST bare_payload) sample_world)).
    vm_compute. reflexivity.
  - apply (proj1 (proj2 (@listing_count ascii_str_lower sample_env
                           (DELETE 3%N) sample_world))).
    vm_compute. reflexivity.
  - apply (proj2 (proj2 (@listing_count ascii_str_lower sample_env
                           (PUT 3%N bare_payload) sample_world)));
      vm_compute; discriminate.
Defined.

(** X8.  Creating a listing and then deleting the identifier that was
    returned gives back the dictionary as it was before the create; the
    delete is answered 204. *)
Theorem create_then_delete `{StrLower} env w payload listing w1 :
  create_listing payload env w = (Return listing, w1) ->
  fst (answer env (DELETE (ListingRead.id listing)) w1) = 204
  /\ listings_db (serve env (DELETE (ListingRead.id listing)) w1) = listings_db w.
Proof.
  intros Hrun.
  destruct (listings_db w !! uuid4_at env (uuid_calls w)) as [old|] eqn:Hkey.
  - rewrite create_listing_conflict in Hrun by eauto. discriminate Hrun.
  - rewrite create_listing_fresh in Hrun by exact Hkey. injection Hrun as <- <-.
    rewrite serve_by_cases, answer_by_cases. simpl.
    rewrite lookup_insert_eq. simpl.
    split; [reflexivity|]. by apply delete_insert_id.
Qed.

Lemma create_then_delete_witness :
  fst (@answer ascii_str_lower sample_env (DELETE 1%N) bare_world) = 204
  /\ listings_db (@serve ascii_str_lower sample_env (DELETE 1%N) bare_world) = ∅.
Proof.
  exact (@create_then_delete ascii_str_lower sample_env initial bare_payload
           (listing_of sample_env 0 0 bare_payload) bare_world eq_refl).
Defined.

Lemma gone_stays_gone `{StrLower} env r w listing_id :
  never_repeats env ->
  (exists i : nat, (i < uuid_calls w)%nat /\ listing_id = uuid4_at env i) ->
  listings_db w !! listing_id = None ->
  (exists i : nat,
     (i < uuid_calls (serve env r w))%nat /\ listing_id = uuid4_at env i)
  /\ listings_db (serve env r w) !! listing_id = None.
Proof.
  intros Hfresh (i & Hi & Hid) Hgone. rewrite serve_by_cases.
  destruct r as [payload|q|other_id payload|other_id]; simpl.
  - destruct (listings_db w !! uuid4_at env (uuid_calls w)) as [old|] eqn:Hkey;
      simpl.
    + split; [exists i; split; [lia | exact Hid] | exact Hgone].
    + split; [exists i; split; [lia | exact Hid]|].
      rewrite lookup_insert_ne; [exact Hgone|].
      rewrite Hid. intros Heq%Hfresh. lia.
  - split; [by exists i | exact Hgone].
  - destruct (listings_db w !! other_id) as [existing|] eqn:Hkey; simpl.
    + split; [exists i; split; [lia | exact Hid]|].
      rewrite lookup_insert_ne; [exact Hgone | congruence].
    + split; [by exists i | exact Hgone].
  - destruct (listings_db w !! other_id) as [existing|] eqn:Hkey; simpl.
    + split; [by exists i|].
      destruct (decide (other_id = listing_id)) as [->|Hne];
        [apply lookup_delete_eq | by rewrite lookup_delete_ne].
    + split; [by exists i | exact Hgone].
Qed.

Lemma gone_after_all `{StrLower} env rs w listing_id :
  never_repeats env ->
  (exists i : nat, (i < uuid_calls w)%nat /\ listing_id = uuid4_at env i) ->
  listings_db w !! listing_id = None ->
  listings_db (serve_all env rs w) !! listing_id = None.
Proof.
  intros Hfresh. revert w.
  induction rs as [|r rs IH]; intros w Hgen Hgone; simpl; [exact Hgone|].
  destruct (gone_stays_gone env r w listing_id Hfresh Hgen Hgone) as [Hgen' Hgone'].
  by apply IH.
Qed.

(** X9.  When the generator never hands out the same identifier twice, a
    listing deleted in a running process stays gone through whatever
    requests follow: its identifier is not a key any more, a further update
    or delete of it is answered 404 and changes nothing, and no listing
    call, whatever the criteria, returns a record with that identifier. *)
Theorem deleted_stays_gone `{StrLower} env w listing_id existing rs :
  never_repeats env ->
  reachable env w ->
  listings_db w !! listing_id = Some existing ->
  let w' := serve_all env rs (serve env (DELETE listing_id) w) in
  listings_db w' !! listing_id = None
  /\ (forall payload,
        update_listing listing_id payload env w' =
          (Raise (HTTPException 404 "Listing not found"), w')
        /\ fst (answer env (PUT listing_id payload) w') = 404)
  /\ delete_listing listing_id env w' =
       (Raise (HTTPException 404 "Course no found."), w')
  /\ fst (answer env (DELETE listing_id) w') = 404
  /\ (forall q, exists results,
        list_listings q env w' = (Return results, w')
        /\ forall l, l ∈ results -> ListingRead.id l ≠ listing_id).
Proof.
  intros Hfresh Hreach Hkey w'.
  assert (Hgone : listings_db w' !! listing_id = None).
  { apply gone_after_all; [exact Hfresh | |].
    - destruct (reachable_ids_generated env w Hreach _ _ Hkey)
        as (i & j & Hij & Hj & Hid & _).
      exists i. rewrite serve_by_cases. simpl. rewrite Hkey. simpl.
      split; [lia | exact Hid].
    - rewrite serve_by_cases. simpl. rewrite Hkey. simpl. apply lookup_delete_eq. }
  split; [exact Hgone|].
  split; [intros payload; split|split; [|split]].
  - by apply update_listing_missing.
  - rewrite answer_by_cases. simpl. by rewrite Hgone.
  - by apply delete_listing_missing.
  - rewrite answer_by_cases. simpl. by rewrite Hgone.
  - intros q. eexists. split; [apply list_listings_run|].
    intros l [[k Hk]%elem_of_stored _]%elem_of_comprehension Hid.
    assert (Hkeys : keys_are_ids w').
    { apply reachable_keys_are_ids with (env := env).
      apply reachable_serve_all. by constructor. }
    rewrite (Hkeys _ _ Hk) in Hid. subst k. congruence.
Qed.

Lemma deleted_stays_gone_witness :
  listings_db
    (@serve_all ascii_str_lower sample_env
       [POST bare_payload; PUT 3%N bare_payload; DELETE 3%N; POST bare_payload]
       (@serve ascii_str_lower sample_env (DELETE 3%N) sample_world)) !! 3%N = None
  /\ fst (@answer ascii_str_lower sample_env (DELETE 3%N)
            (@serve_all ascii_str_lower sample_env
               [POST bare_payload; PUT 3%N bare_payload; DELETE 3%N; POST bare_payload]
               (@serve ascii_str_lower sample_env (DELETE 3%N) sample_world))) = 404.
Proof.
  pose proof (@deleted_stays_gone ascii_str_lower sample_env sample_world 3%N
                (listing_of sample_env 2 2 (sample_payload 1500%float))
                [POST bare_payload; PUT 3%N bare_payload; DELETE 3%N; POST bare_payload]
                sample_generator_never_repeats sample_world_reachable eq_refl)
    as Hgone.
  cbv zeta in Hgone. destruct Hgone as (Hkey & _ & _ & Hdelete & _).
  split; [exact Hkey | exact Hdelete].
Defined.

(** X10.  After a successful update, the call without criteria returns the
    new record; in a running process the new record is the only one returned
    with that identifier, and the records with other identifiers are
    returned exactly as before the update. *)
Theorem update_then_list `{StrLower} env w listing_id payload new_listing w' :
  update_listing listing_id payload env w = (Return new_listing, w') ->
  exists results,
    list_listings Query.none env w' = (Return results, w')
    /\ new_listing ∈ results
    /\ (reachable env w ->
        (forall l, l ∈ results -> ListingRead.id l = listing_id -> l = new_listing)
        /\ (forall l, ListingRead.id l ≠ listing_id ->
              (l ∈ results <-> l ∈ stored w))).
Proof.
  intros Hrun.
  destruct (listings_db w !! listing_id) as [existing|] eqn:Hkey.
  2: { rewrite update_listing_missing in Hrun by exact Hkey. discriminate Hrun. }
  rewrite (update_listing_found _ _ _ _ _ Hkey) in Hrun. cbv zeta in Hrun.
  injection Hrun as <- <-.
  eexists. split; [apply list_listings_run|].
  assert (Hall : forall l,
            l ∈ List.filter (passes Query.none)
                  (stored (with_db (advance 1 2 w)
                             (<[listing_id := updated_of env w listing_id payload existing]>
                                (listings_db w))))
            <-> exists k,
                  <[listing_id := updated_of env w listing_id payload existing]>
                    (listings_db w) !! k = Some l).
  { intros l. rewrite elem_of_comprehension, elem_of_stored. simpl.
    split; [by intros [? _] | by intros ?]. }
  split.
  - apply Hall. exists listing_id. apply lookup_insert_eq.
  - intros Hreach. pose proof (reachable_keys_are_ids env w Hreach) as Hkeys.
    split.
    + intros l [k Hk]%Hall Hid.
      apply lookup_insert_Some in Hk as [[_ <-]|[Hne Hk]]; [reflexivity|].
      rewrite (Hkeys _ _ Hk) in Hid. congruence.
    + intros l Hid. rewrite Hall, elem_of_stored. split.
      * intros [k Hk]. exists k.
        apply lookup_insert_Some in Hk as [[_ <-]|[Hne Hk]]; [done | exact Hk].
      * intros [k Hk]. exists k. rewrite lookup_insert_ne; [exact Hk|].
        intros <-. apply Hid. by apply Hkeys.
Qed.

Lemma update_then_list_witness :
  exists results,
    @list_listings ascii_str_lower Query.none sample_env
      (snd (update_listing 3%N bare_payload sample_env sample_world)) =
      (Return results, snd (update_listing 3%N bare_payload sample_env sample_world))
    /\ updated_of sample_env sample_world 3%N bare_payload
         (listing_of sample_env 2 2 (sample_payload 1500%float)) ∈ results.
Proof.
  destruct (@update_then_list ascii_str_lower sample_env sample_world 3%N bare_payload
              (updated_of sample_env sample_world 3%N bare_payload
                 (listing_of sample_env 2 2 (sample_payload 1500%float)))
              (snd (update_listing 3%N bare_payload sample_env sample_world)) eq_refl)
    as (results & Hrun & Hin & _).
  exists results. split; [exact Hrun | exact Hin].
Defined.

(** ** More criteria *)

Lemma comprehension_none (p : ListingRead.t -> bool) rs :
  (forall l, l ∈ rs -> p l = false) -> List.filter p rs = [].
Proof.
  induction rs as [|r rs IH]; intros Hp; simpl; [reflexivity|].
  rewrite (Hp r) by apply list_elem_of_here.
  apply IH. intros l Hl. apply Hp. by apply list_elem_of_further.
Qed.

Lemma comprehension_split_length (p : ListingRead.t -> bool) rs :
  (length (List.filter p rs) + length (List.filter (fun l => negb (p l)) rs))%nat
  = length rs.
Proof.
  induction rs as [|r rs IH]; simpl; [reflexivity|].
  destruct (p r); simpl; lia.
Qed.

Lemma passes_with_min_bedrooms `{StrLower} v q l :
  passes (with_min_bedrooms v q) l =
  passes (with_min_bedrooms None q) l
  && supplied v (fun v => ListingRead.num_bedrooms l >=? v).
Proof. unfold passes. simpl. btauto. Qed.

Lemma passes_with_max_bedrooms `{StrLower} v q l :
  passes (with_max_bedrooms v q) l =
  passes (with_max_bedrooms None q) l
  && supplied v (fun v => ListingRead.num_bedrooms l <=? v).
Proof. unfold passes. simpl. btauto. Qed.

Lemma passes_with_bedrooms `{StrLower} lo hi q l :
  passes (with_min_bedrooms lo (with_max_bedrooms hi q)) l =
  passes (with_min_bedrooms None (with_max_bedrooms None q)) l
  && (supplied lo (fun v => ListingRead.num_bedrooms l >=? v)
      && supplied hi (fun v => ListingRead.num_bedrooms l <=? v)).
Proof. unfold passes. simpl. btauto. Qed.

(** X11.  The bedroom bounds are inclusive on the number of bedrooms: with
    min_bedrooms (max_bedrooms) supplied a listing is returned if and only
    if it is returned without that criterion and has at least (at most)
    that many bedrooms.  With both, a range whose lower bound is above the
    upper bound returns nothing, and a range with equal bounds returns the
    listings with exactly that number of bedrooms. *)
Theorem bedroom_bounds `{StrLower} q env w :
  (forall lo, exists results others,
     list_listings (with_min_bedrooms (Some lo) q) env w = (Return results, w)
     /\ list_listings (with_min_bedrooms None q) env w = (Return others, w)
     /\ forall l, l ∈ results <-> l ∈ others /\ lo <= ListingRead.num_bedrooms l)
  /\ (forall hi, exists results others,
        list_listings (with_max_bedrooms (Some hi) q) env w = (Return results, w)
        /\ list_listings (with_max_bedrooms None q) env w = (Return others, w)
        /\ forall l, l ∈ results <-> l ∈ others /\ ListingRead.num_bedrooms l <= hi)
  /\ (forall lo hi, exists results others,
        list_listings (with_min_bedrooms (Some lo) (with_max_bedrooms (Some hi) q))
          env w = (Return results, w)
        /\ list_listings (with_min_bedrooms None (with_max_bedrooms None q))
             env w = (Return others, w)
        /\ (forall l, l ∈ results <->
              l ∈ others /\ lo <= ListingRead.num_bedrooms l <= hi)
        /\ (hi < lo -> results = [])
        /\ (lo = hi ->
            forall l, l ∈ results <-> l ∈ others /\ ListingRead.num_bedrooms l = lo)).
Proof.
  split; [|split].
  - intros lo.
    destruct (narrowed _ _ _ env w (passes_with_min_bedrooms (Some lo) q))
      as (rs & os & Hr & Ho & Hiff).
    exists rs, os. split; [exact Hr|]. split; [exact Ho|].
    intros l. rewrite Hiff. simpl. by rewrite Z.geb_le.
  - intros hi.
    destruct (narrowed _ _ _ env w (passes_with_max_bedrooms (Some hi) q))
      as (rs & os & Hr & Ho & Hiff).
    exists rs, os. split; [exact Hr|]. split; [exact Ho|].
    intros l. rewrite Hiff. simpl. by rewrite Z.leb_le.
  - intros lo hi.
    destruct (narrowed _ _ _ env w (passes_with_bedrooms (Some lo) (Some hi) q))
      as (rs & os & Hr & Ho & Hiff).
    assert (Hin : forall l, l ∈ rs <->
              l ∈ os /\ lo <= ListingRead.num_bedrooms l <= hi).
    { intros l. rewrite Hiff. simpl. by rewrite andb_true_iff, Z.geb_le, Z.leb_le. }
    exists rs, os. split; [exact Hr|]. split; [exact Ho|]. split; [exact Hin|].
    split.
    + intros Hempty. destruct rs as [|l rs]; [reflexivity|].
      assert (Hl : l ∈ l :: rs) by apply list_elem_of_here.
      apply Hin in Hl. lia.
    + intros -> l. rewrite Hin. split; intros [? ?]; (split; [done | lia]).
Qed.

Lemma passes_is_available_value `{StrLower} v q l :
  passes (Query.with_is_available (Some v) q) l =
  passes (Query.with_is_available None q) l
  && Bool.eqb (ListingRead.is_available l) v.
Proof. apply (passes_with_is_available (Some v)). Qed.

(** X12.  The availability criterion splits a result in two: every listing
    returned without the criterion is returned for exactly one of
    is_available=true and is_available=false, and the two results together
    have as many listings as the result without the criterion. *)
Theorem availability_partition `{StrLower} q env w :
  exists available unavailable others,
    list_listings (Query.with_is_available (Some true) q) env w =
      (Return available, w)
    /\ list_listings (Query.with_is_available (Some false) q) env w =
      (Return unavailable, w)
    /\ list_listings (Query.with_is_available None q) env w = (Return others, w)
    /\ (forall l, l ∈ available <->
          l ∈ others /\ ListingRead.is_available l = true)
    /\ (forall l, l ∈ unavailable <->
          l ∈ others /\ ListingRead.is_available l = false)
    /\ (forall l, l ∈ others ->
          (l ∈ available /\ l ∉ unavailable) \/ (l ∈ unavailable /\ l ∉ available))
    /\ (length available + length unavailable)%nat = length others.
Proof.
  set (base := List.filter (passes (Query.with_is_available None q)) (stored w)).
  assert (Hof : forall v,
            List.filter (passes (Query.with_is_available (Some v) q)) (stored w) =
            List.filter (fun l => Bool.eqb (ListingRead.is_available l) v) base).
  { intros v. unfold base. rewrite comprehension_twice.
    apply List.filter_ext. intros l. apply passes_is_available_value. }
  exists (List.filter (passes (Query.with_is_available (Some true) q)) (stored w)),
         (List.filter (passes (Query.with_is_available (Some false) q)) (stored w)),
         base.
  split; [apply list_listings_run|]. split; [apply list_listings_run|].
  split; [apply list_listings_run|].
  rewrite !Hof.
  assert (Hin : forall v l,
            l ∈ List.filter (fun l => Bool.eqb (ListingRead.is_available l) v) base
            <-> l ∈ base /\ ListingRead.is_available l = v).
  { intros v l. by rewrite elem_of_comprehension, Bool.eqb_true_iff. }
  split; [apply Hin|]. split; [apply Hin|]. split.
  - intros l Hl. rewrite !Hin.
    destruct (ListingRead.is_available l); [left | right];
      (split; [by split | by intros [_ ?]]).
  - rewrite <- (comprehension_split_length
                  (fun l => Bool.eqb (ListingRead.is_available l) true) base).
    f_equal. f_equal. apply List.filter_ext. intros l.
    by destruct (ListingRead.is_available l).
Qed.

(** X13.  The amenities criterion looks only at which tags are requested:
    two requests that name the same tags, in any order and any number of
    times, return the same listings. *)
Theorem amenities_order_irrelevant `{StrLower} q req req' env w :
  (forall a, a ∈ req <-> a ∈ req') ->
  list_listings (Query.with_amenities (Some req) q) env w =
  list_listings (Query.with_amenities (Some req') q) env w.
Proof.
  intros Hsame. rewrite !list_listings_run.
  apply (f_equal (fun rs => (Return rs, w))).
  apply List.filter_ext. intros l.
  rewrite (passes_with_amenities (Some req)), (passes_with_amenities (Some req')).
  apply (f_equal (andb _)). simpl.
  apply eq_true_iff_eq. rewrite !amenities_test_subset.
  split; intros Hall a Ha; apply Hall; by apply Hsame.
Qed.

Lemma amenities_order_irrelevant_witness :
  @list_listings ascii_str_lower
    (Query.with_amenities (Some ["Gym"; "Pool"]) Query.none) sample_env sample_world =
  @list_listings ascii_str_lower
    (Query.with_amenities (Some ["Pool"; "Gym"; "Gym"]) Query.none)
    sample_env sample_world.
Proof.
  apply (@amenities_order_irrelevant ascii_str_lower).
  intros a. rewrite !elem_of_cons, elem_of_nil. tauto.
Defined.

(** ** Bounds that are not numbers *)

Lemma nan_spec (x : float) : PrimFloat.is_nan x = true -> Prim2SF x = S754_nan.
Proof.
  unfold PrimFloat.is_nan. rewrite negb_true_iff, FloatAxioms.eqb_spec.
  unfold SFeqb. destruct (Prim2SF x) as [z|s| |s m e]; simpl.
  - discriminate.
  - destruct s; discriminate.
  - reflexivity.
  - destruct s; rewrite Z.compare_refl, Pos.compare_cont_refl; discriminate.
Qed.

Lemma nan_unordered (x y : float) :
  PrimFloat.is_nan x = true ->
  PrimFloat.leb x y = false /\ PrimFloat.leb y x = false.
Proof.
  intros Hx%nan_spec. rewrite !FloatAxioms.leb_spec, Hx. unfold SFleb.
  split; [reflexivity|]. by destruct (Prim2SF y).
Qed.

Lemma nan_int_unordered (z : Z) (f : float) :
  PrimFloat.is_nan f = true ->
  int_ge_float z f = false /\ int_le_float z f = false.
Proof.
  intros Hf%nan_spec. unfold int_ge_float, int_le_float, int_cmp_float.
  rewrite Hf. by split.
Qed.

Lemma passes_with_min_rent `{StrLower} v q l :
  passes (with_min_rent v q) l =
  passes (with_min_rent None q) l
  && supplied v (fun v => float_ge (ListingRead.monthly_rent l) v).
Proof. unfold passes. simpl. btauto. Qed.

Lemma passes_with_max_rent `{StrLower} v q l :
  passes (with_max_rent v q) l =
  passes (with_max_rent None q) l
  && supplied v (fun v => float_le (ListingRead.monthly_rent l) v).
Proof. unfold passes. simpl. btauto. Qed.

Lemma passes_with_min_bathrooms `{StrLower} v q l :
  passes (with_min_bathrooms v q) l =
  passes (with_min_bathrooms None q) l
  && supplied v (fun v => int_ge_float (ListingRead.num_bathrooms l) v).
Proof. unfold passes. simpl. btauto. Qed.

Lemma passes_with_max_bathrooms `{StrLower} v q l :
  passes (with_max_bathrooms v q) l =
  passes (with_max_bathrooms None q) l
  && supplied v (fun v => int_le_float (ListingRead.num_bathrooms l) v).
Proof. unfold passes. simpl. btauto. Qed.

Lemma nothing_passes `{StrLower} q env w :
  (forall l, passes q l = false) -> list_listings q env w = (Return [], w).
Proof.
  intros Hnone. rewrite list_listings_run.
  rewrite comprehension_none; [reflexivity|]. intros l _. apply Hnone.
Qed.

(** X14.  A bound that is NaN matches nothing: with min_rent, max_rent,
    min_bathrooms or max_bathrooms supplied as NaN the call returns the
    empty list, whatever the dictionary and the other criteria.  And a
    stored listing whose rent is NaN is returned by no call that supplies a
    rent bound. *)
Theorem nan_bounds `{StrLower} q env w :
  (forall v,
     PrimFloat.is_nan v = true ->
     list_listings (with_min_rent (Some v) q) env w = (Return [], w)
     /\ list_listings (with_max_rent (Some v) q) env w = (Return [], w)
     /\ list_listings (with_min_bathrooms (Some v) q) env w = (Return [], w)
     /\ list_listings (with_max_bathrooms (Some v) q) env w = (Return [], w))
  /\ (forall v l,
        PrimFloat.is_nan (ListingRead.monthly_rent l) = true ->
        exists above below,
          list_listings (with_min_rent (Some v) q) env w = (Return above, w)
          /\ list_listings (with_max_rent (Some v) q) env w = (Return below, w)
          /\ (l ∉ above) /\ (l ∉ below)).
Proof.
  split.
  - intros v Hv. repeat split; apply nothing_passes; intros l.
    + rewrite passes_with_min_rent. simpl. unfold float_ge.
      rewrite (proj1 (nan_unordered v _ Hv)). apply andb_false_r.
    + rewrite passes_with_max_rent. simpl. unfold float_le.
      rewrite (proj2 (nan_unordered v _ Hv)). apply andb_false_r.
    + rewrite passes_with_min_bathrooms. simpl.
      rewrite (proj1 (nan_int_unordered _ v Hv)). apply andb_false_r.
    + rewrite passes_with_max_bathrooms. simpl.
      rewrite (proj2 (nan_int_unordered _ v Hv)). apply andb_false_r.
  - intros v l Hl. do 2 eexists.
    split; [apply list_listings_run|]. split; [apply list_listings_run|].
    rewrite !elem_of_comprehension, passes_with_min_rent, passes_with_max_rent.
    simpl. unfold float_ge, float_le.
    rewrite (proj2 (nan_unordered _ v Hl)), (proj1 (nan_unordered _ v Hl)).
    rewrite !andb_false_r. split; by intros [_ ?].
Qed.

Lemma nan_bounds_witness :
  @list_listings ascii_str_lower (with_min_rent (Some PrimFloat.nan) Query.none)
    sample_env sample_world = (Return [], sample_world)
  /\ @list_listings ascii_str_lower (with_max_bathrooms (Some PrimFloat.nan) Query.none)
       sample_env sample_world = (Return [], sample_world).
Proof.
  destruct (proj1 (@nan_bounds ascii_str_lower Query.none sample_env sample_world)
              PrimFloat.nan eq_refl) as (Hrent & _ & _ & Hbath).
  split; [exact Hrent | exact Hbath].
Defined.

(** ** The defaults of the model *)

(** X15.  A listing created from a body that leaves out amenities,
    availability and square footage is stored as available, without
    amenities and without square footage.  Right after the create it is
    returned for is_available=true and not for is_available=false, it is
    returned for no non-empty amenities request, and for no min_sqft above
    0. *)
Theorem defaults_when_left_out `{StrLower} body env w listing w' :
  ListingBody.amenities body = None ->
  ListingBody.is_available body = None ->
  ListingBody.square_feet body = None ->
  create_listing (listing_create_of body) env w = (Return listing, w') ->
  ListingRead.is_available listing = true
  /\ ListingRead.amenities listing = []
  /\ ListingRead.square_feet listing = None
  /\ ListingRead.description listing = ListingBody.description body
  /\ (exists results,
        list_listings (Query.with_is_available (Some true) Query.none) env w' =
          (Return results, w')
        /\ listing ∈ results)
  /\ (exists results,
        list_listings (Query.with_is_available (Some false) Query.none) env w' =
          (Return results, w')
        /\ listing ∉ results)
  /\ (forall req, req ≠ [] ->
        exists results,
          list_listings (Query.with_amenities (Some req) Query.none) env w' =
            (Return results, w')
          /\ listing ∉ results)
  /\ (forall v, 0 < v ->
        exists results,
          list_listings (Query.with_min_sqft (Some v) Query.none) env w' =
            (Return results, w')
          /\ listing ∉ results).
Proof.
  intros Ham Hav Hsq Hrun.
  destruct (listings_db w !! uuid4_at env (uuid_calls w)) as [old|] eqn:Hkey.
  { rewrite create_listing_conflict in Hrun by eauto. discriminate Hrun. }
  rewrite create_listing_fresh in Hrun by exact Hkey. injection Hrun as <- <-.
  assert (Hstored : listing_of env (uuid_calls w) (clock_reads w) (listing_create_of body)
            ∈ stored (with_db (advance 2 2 w)
                        (<[uuid4_at env (uuid_calls w) :=
                             listing_of env (uuid_calls w) (clock_reads w)
                               (listing_create_of body)]> (listings_db w)))).
  { apply elem_of_stored. eexists. apply lookup_insert_eq. }
  split; [simpl; by rewrite Hav|]. split; [simpl; by rewrite Ham|].
  split; [exact Hsq|]. split; [reflexivity|].
  split; [|split; [|split]].
  - eexists. split; [apply list_listings_run|].
    apply elem_of_comprehension. split; [exact Hstored|].
    unfold passes. simpl. by rewrite Hav.
  - eexists. split; [apply list_listings_run|].
    rewrite elem_of_comprehension. unfold passes. simpl. rewrite Hav.
    by intros [_ ?].
  - intros req Hreq. eexists. split; [apply list_listings_run|].
    rewrite elem_of_comprehension.
    rewrite (passes_with_amenities (Some req)). simpl.
    rewrite amenities_test_subset. simpl. rewrite Ham. simpl.
    intros [_ Hall]. destruct req as [|a req]; [done|].
    specialize (Hall a (list_elem_of_here _ _)). by apply elem_of_nil in Hall.
  - intros v Hv. eexists. split; [apply list_listings_run|].
    rewrite elem_of_comprehension.
    rewrite (passes_with_min_sqft (Some v)). simpl.
    rewrite Hsq. simpl. rewrite Z.geb_le.
    intros [_ ?]. lia.
Qed.

Lemma defaults_when_left_out_witness :
  ListingRead.is_available (listing_of sample_env 0 0 (listing_create_of minimal_body))
  = true
  /\ ListingRead.amenities (listing_of sample_env 0 0 (listing_create_of minimal_body))
     = [].
Proof.
  destruct (@defaults_when_left_out ascii_str_lower minimal_body sample_env initial
              (listing_of sample_env 0 0 (listing_create_of minimal_body))
              (snd (create_listing (listing_create_of minimal_body) sample_env initial))
              eq_refl eq_refl eq_refl eq_refl)
    as (Hav & Ham & _).
  split; [exact Hav | exact Ham].
Defined.

(** ** Case variants and stored records *)

(** X16.  Two city values, or two state values, that are equal after
    lower-casing return the same listings (the value being non-empty). *)
Theorem case_variants_agree `{StrLower} q c c' env w :
  lower c = lower c' ->
  c ≠ EmptyString ->
  list_listings (Query.with_city (Some c) q) env w =
    list_listings (Query.with_city (Some c') q) env w
  /\ list_listings (Query.with_state (Some c) q) env w =
    list_listings (Query.with_state (Some c') q) env w.
Proof.
  intros Hlower Hc.
  assert (Hc' : c' ≠ EmptyString).
  { intros ->. rewrite lower_empty in Hlower. by apply lower_nonempty in Hlower. }
  rewrite !list_listings_run.
  split; apply (f_equal (fun rs => (Return rs, w)));
    apply List.filter_ext; intros l.
  - rewrite (passes_with_city (Some c)), (passes_with_city (Some c')).
    apply (f_equal (andb _)). simpl. unfold city_test.
    rewrite !truthy_str_true by done. by rewrite Hlower.
  - rewrite (passes_with_state (Some c)), (passes_with_state (Some c')).
    apply (f_equal (andb _)). simpl. unfold state_test.
    rewrite !truthy_str_true by done. by rewrite Hlower.
Qed.

Lemma case_variants_agree_witness :
  @list_listings ascii_str_lower (Query.with_city (Some "NEW YORK") Query.none)
    sample_env sample_world =
  @list_listings ascii_str_lower (Query.with_city (Some "new york") Query.none)
    sample_env sample_world.
Proof.
  apply (@case_variants_agree ascii_str_lower Query.none "NEW YORK" "new york"
           sample_env sample_world); [reflexivity | discriminate].
Defined.

(** X17.  A record that is in the dictionary before and after a request
    keeps its creation timestamp and its place under its identifier, and
    it is the very same record unless the request is an update of that
    identifier. *)
Theorem stored_record_kept `{StrLower} env r w k l l' :
  listings_db w !! k = Some l ->
  listings_db (serve env r w) !! k = Some l' ->
  ListingRead.created_at l' = ListingRead.created_at l
  /\ (ListingRead.id l = k -> ListingRead.id l' = k)
  /\ ((forall payload, r ≠ PUT k payload) -> l' = l).
Proof.
  intros Hk. rewrite serve_by_cases.
  destruct r as [payload|q|listing_id payload|listing_id]; simpl.
  - destruct (listings_db w !! uuid4_at env (uuid_calls w)) as [old|] eqn:Hkey;
      simpl; intros Hk'.
    + assert (l' = l) as -> by congruence. done.
    + rewrite lookup_insert_ne in Hk' by congruence.
      assert (l' = l) as -> by congruence. done.
  - intros Hk'. assert (l' = l) as -> by congruence. done.
  - destruct (listings_db w !! listing_id) as [existing|] eqn:Hkey; simpl; intros Hk'.
    + destruct (decide (listing_id = k)) as [->|Hne].
      * rewrite lookup_insert_eq in Hk'. injection Hk' as <-. simpl.
        split; [congruence|]. split; [done|]. intros Hput. by destruct (Hput payload).
      * rewrite lookup_insert_ne in Hk' by exact Hne.
        assert (l' = l) as -> by congruence. done.
    + assert (l' = l) as -> by congruence. done.
  - destruct (listings_db w !! listing_id) as [existing|] eqn:Hkey; simpl; intros Hk'.
    + apply lookup_delete_Some in Hk' as [_ Hk'].
      assert (l' = l) as -> by congruence. done.
    + assert (l' = l) as -> by congruence. done.
Qed.

Lemma stored_record_kept_witness :
  ListingRead.created_at
    (updated_of sample_env sample_world 3%N bare_payload
       (listing_of sample_env 2 2 (sample_payload 1500%float)))
  = ListingRead.created_at (listing_of sample_env 2 2 (sample_payload 1500%float)).
Proof.
  apply (@stored_record_kept ascii_str_lower sample_env (PUT 3%N bare_payload)
           sample_world 3%N); vm_compute; reflexivity.
Defined.
